(** * word_number_formatter: thousands grouping of the numbers of a Word document

    A shallow embedding of [WordNumberFormatter] (src/word_number_formatter.py):
    [format_number], the compiled [number_pattern], [process_text] with its
    [replace_number] callback, [process_paragraph] and [process_document].

    Python strings are sequences of Unicode code points; a code point is an
    [N], a string a list of them.  The regular expression is kept as a syntax
    tree and run by a backtracking matcher, the way [re] runs it.

    Python integers are unbounded here: the interpreter's optional guard on
    the length of int/str conversions ([sys.set_int_max_str_digits]) is not
    part of the model. *)

From Stdlib Require Import String Ascii.
From Stdlib Require Import List NArith ZArith Bool Lia Arith.
Import ListNotations.

(* ===================================================================== *)
(** ** Characters and strings *)
(* ===================================================================== *)

Abbreviation char := N (only parsing).
Abbreviation str := (list N) (only parsing).

(** An ASCII literal as a Python string. *)
Fixpoint lit (s : string) : str :=
  match s with
  | EmptyString => []
  | String a s' => N_of_ascii a :: lit s'
  end.

Definition c_minus   : char := 45%N.     (* '-' *)
Definition c_dot     : char := 46%N.     (* '.' *)
Definition c_comma   : char := 44%N.     (* ',' *)
Definition c_slash   : char := 47%N.     (* '/' *)
Definition c_percent : char := 37%N.     (* '%' *)
Definition c_plus    : char := 43%N.     (* '+' *)
Definition c_under   : char := 95%N.     (* '_' *)
Definition c_space   : char := 32%N.     (* ' ' *)
Definition c_qmark   : char := 63%N.     (* '?' *)
Definition c_zero    : char := 48%N.     (* '0' *)
Definition c_nian    : char := 24180%N.  (* U+5E74, year   *)
Definition c_yue     : char := 26376%N.  (* U+6708, month  *)
Definition c_ri      : char := 26085%N.  (* U+65E5, day    *)
Definition c_shi     : char := 26102%N.  (* U+65F6, hour   *)
Definition c_fen     : char := 20998%N.  (* U+5206, minute *)
Definition c_miao    : char := 31186%N.  (* U+79D2, second *)

Definition str_eqb (a b : str) : bool :=
  if list_eq_dec N.eq_dec a b then true else false.

(** [text[a:b]] for non-negative indices. *)
Definition slice (text : str) (a b : nat) : str :=
  firstn (b - a) (skipn a text).

(** [c in s] for a one-character [c]. *)
Definition contains (c : char) (s : str) : bool := existsb (N.eqb c) s.

(** [x in l] for a list [l] of strings. *)
Definition str_in (x : str) (l : list str) : bool := existsb (str_eqb x) l.

(** [s.split(sep)] for a one-character separator: the pieces between the
    occurrences of [sep], always at least one piece. *)
Fixpoint split (sep : char) (s : str) : list str :=
  match s with
  | [] => [[]]
  | c :: s' =>
      if N.eqb c sep then [] :: split sep s'
      else match split sep s' with
           | p :: ps => (c :: p) :: ps
           | [] => [[c]]
           end
  end.

(* ===================================================================== *)
(** ** Exceptions *)
(* ===================================================================== *)

(** An exception with the text [str(e)] gives; the text of the errors
    that [int] raises is not modelled and left empty. *)
Inductive exn : Type :=
| ValueError (msg : str)
| OtherError (msg : str).

Definition exn_str (e : exn) : str :=
  match e with
  | ValueError msg => msg
  | OtherError msg => msg
  end.

Inductive outcome (A : Type) : Type :=
| Return (a : A)
| Raise (e : exn).

Arguments Return {A} a.
Arguments Raise {A} e.

Definition bind {A B} (m : outcome A) (f : A -> outcome B) : outcome B :=
  match m with
  | Return a => f a
  | Raise e => Raise e
  end.

Notation "x <- m ;; k" := (bind m (fun x => k))
  (at level 61, m at next level, right associativity).

(* ===================================================================== *)
(** ** The Unicode character database *)
(* ===================================================================== *)

(** What the formatter needs to know of a code point.  Every code point
    has one general category, so the classes exclude each other. *)
Inductive uclass : Type :=
| UDecimal (v : N)   (* a decimal digit (Nd) and its value, 0..9 *)
| UDigit             (* another digit, e.g. a superscript *)
| UNumeric           (* another numeric character, e.g. a fraction *)
| UAlpha             (* a letter *)
| USpace             (* white space *)
| UOther.

(** The classes of the code points from 128 on are a parameter: any table
    can be plugged in.  ASCII is fixed below, and so is the block of CJK
    ideographs U+4E00..U+9FA5 (letters, category Lo), where the six date
    and time markers live. *)
Definition ucd : Type := char -> uclass.

Definition is_ascii (c : char) : bool := (c <? 128)%N.
Definition ascii_digit (c : char) : bool := (48 <=? c)%N && (c <=? 57)%N.
Definition ascii_alpha (c : char) : bool :=
  ((65 <=? c)%N && (c <=? 90)%N) || ((97 <=? c)%N && (c <=? 122)%N).
Definition cjk_ideograph (c : char) : bool :=
  (19968 <=? c)%N && (c <=? 40869)%N.
(** C's [isspace] in the "C" locale, as [Py_ISSPACE]. *)
Definition ascii_space (c : char) : bool :=
  ((9 <=? c)%N && (c <=? 13)%N) || (c =? 32)%N.

Section Unicode.

Variable U : ucd.

Definition class_of (c : char) : uclass :=
  if is_ascii c then
    if ascii_digit c then UDecimal (c - 48)%N
    else if ascii_alpha c then UAlpha
    else if ascii_space c || ((28 <=? c)%N && (c <=? 31)%N) then USpace
    else UOther
  else if cjk_ideograph c then UAlpha
  else match U c with
       | UDecimal v => if (v <? 10)%N then UDecimal v else UOther
       | cl => cl
       end.

(** [Py_UNICODE_TODECIMAL]. *)
Definition to_decimal (c : char) : option N :=
  match class_of c with
  | UDecimal v => Some v
  | _ => None
  end.

(** [Py_UNICODE_ISDECIMAL]: what [\d] matches in a str pattern. *)
Definition is_decimal (c : char) : bool :=
  match to_decimal c with Some _ => true | None => false end.

(** [Py_UNICODE_ISDIGIT]: what [str.isdigit] asks of every character. *)
Definition is_digit (c : char) : bool :=
  match class_of c with
  | UDecimal _ | UDigit => true
  | _ => false
  end.

(** [Py_UNICODE_ISALNUM]: alphabetic, decimal, digit or numeric. *)
Definition is_alnum (c : char) : bool :=
  match class_of c with
  | UAlpha | UDecimal _ | UDigit | UNumeric => true
  | _ => false
  end.

(** What [\w] matches in a str pattern. *)
Definition is_word (c : char) : bool := is_alnum c || (c =? c_under)%N.

(** [Py_UNICODE_ISSPACE]. *)
Definition is_space (c : char) : bool :=
  match class_of c with
  | USpace => true
  | _ => false
  end.

(** [s.isdigit()]. *)
Definition isdigit (s : str) : bool :=
  match s with
  | [] => false
  | _ => forallb is_digit s
  end.

(* ===================================================================== *)
(** ** [int(s)] and ["{:,}".format(n)] *)
(* ===================================================================== *)

(** First step of [int(s)]: decimal digits of every script become ASCII
    digits, white space becomes a blank, any other character from 127 on
    becomes a question mark. *)
Definition transform_decimal_and_space (s : str) : str :=
  map (fun c =>
         if (c <? 127)%N then c
         else if is_space c then c_space
         else match to_decimal c with
              | Some d => (c_zero + d)%N
              | None => c_qmark
              end) s.

Fixpoint skip_spaces (s : str) : str :=
  match s with
  | c :: s' => if ascii_space c then skip_spaces s' else s
  | [] => []
  end.

(** The digits of a base-10 literal, single underscores allowed between
    two digits; returns the value read and what is left. *)
Fixpoint digits_loop (acc : N) (s : str) : N * str :=
  match s with
  | c :: s' =>
      if ascii_digit c then digits_loop (10 * acc + (c - 48))%N s'
      else if (c =? c_under)%N then
        match s' with
        | d :: s'' =>
            if ascii_digit d then digits_loop (10 * acc + (d - 48))%N s''
            else (acc, s)
        | [] => (acc, s)
        end
      else (acc, s)
  | [] => (acc, [])
  end.

(** [PyLong_FromString] in base 10. *)
Definition long_from_string (s : str) : outcome Z :=
  let s1 := skip_spaces s in
  let '(negative, s2) :=
    match s1 with
    | c :: t => if (c =? c_plus)%N then (false, t)
                else if (c =? c_minus)%N then (true, t)
                else (false, s1)
    | [] => (false, s1)
    end in
  match s2 with
  | c :: _ =>
      if ascii_digit c then
        let '(v, rest) := digits_loop 0%N s2 in
        match skip_spaces rest with
        | [] => Return (if negative then (- Z.of_N v)%Z else Z.of_N v)
        | _ :: _ => Raise (ValueError [])
        end
      else Raise (ValueError [])
  | [] => Raise (ValueError [])
  end.

Definition py_int (s : str) : outcome Z :=
  long_from_string (transform_decimal_and_space s).

End Unicode.

(** [str(n)] for a natural number, most significant digit first. *)
Fixpoint digits_fuel (fuel : nat) (n : N) (acc : str) : str :=
  let acc' := (c_zero + n mod 10)%N :: acc in
  match fuel with
  | O => acc'
  | S fuel' => if (n <? 10)%N then acc' else digits_fuel fuel' (n / 10)%N acc'
  end.

Definition str_of_N (n : N) : str := digits_fuel (N.to_nat (N.log2 n)) n [].

(** Thousands grouping on the digits taken least significant first: a comma
    after every third digit that has a digit after it. *)
Fixpoint group_rev (ds : str) : str :=
  match ds with
  | a :: b :: c :: ((_ :: _) as rest) => a :: b :: c :: c_comma :: group_rev rest
  | _ => ds
  end.

(** ["{:,}".format(n)]. *)
Definition format_comma (n : Z) : str :=
  let body := rev (group_rev (rev (str_of_N (Z.abs_N n)))) in
  if (n <? 0)%Z then c_minus :: body else body.

(* ===================================================================== *)
(** ** [format_number] *)
(* ===================================================================== *)

Section Formatter.

Variable U : ucd.

Definition startswith_minus (s : str) : bool :=
  match s with
  | c :: _ => (c =? c_minus)%N
  | [] => false
  end.

(** The body of the [try]. *)
Definition format_number_try (is_negative : bool) (num_str : str) : outcome str :=
  result <-
    (if contains c_dot num_str then
       match split c_dot num_str with
       | [integer_part; decimal_part] =>
           integer_num <- py_int U integer_part ;;
           let formatted_integer := format_comma integer_num in
           Return (formatted_integer ++ [c_dot] ++ decimal_part)
       | _ => Raise (ValueError [])   (* unpacking into two names *)
       end
     else
       num <- py_int U num_str ;;
       Return (format_comma num)) ;;
  Return (if is_negative then c_minus :: result else result).

Definition format_number (num_str : str) : outcome str :=
  let is_negative := startswith_minus num_str in
  let num_str := if is_negative then tl num_str else num_str in
  match format_number_try is_negative num_str with
  | Return result => Return result
  | Raise (ValueError _) =>
      Return (if negb is_negative then num_str else c_minus :: num_str)
  | Raise e => Raise e
  end.

End Formatter.

(* ===================================================================== *)
(** ** Regular expressions *)
(* ===================================================================== *)

(** The constructs [number_pattern] is written with. *)
Inductive regex : Type :=
| Chr (p : char -> bool)         (* one character of a class *)
| Cat (r1 r2 : regex)            (* r1 r2 *)
| Alt (r1 r2 : regex)            (* r1|r2 *)
| Opt (r : regex)                (* r?, greedy *)
| Plus (r : regex)               (* r+, greedy *)
| NotBehind (p : char -> bool)   (* (?<![...]), one character back *)
| NotAhead (r : regex).          (* (?!r) *)

(** The greedy loop of [r+]: one more [r], then as many more as can be
    had, else on with [k].  [m] matches one [r]; [n] bounds the number of
    further rounds. *)
Definition plus_loop {A : Type}
    (m : str -> str -> (str -> str -> option A) -> option A)
    (k : str -> str -> option A) : nat -> str -> str -> option A :=
  fix loop (n : nat) (pre s : str) {struct n} : option A :=
    m pre s
      (fun pre' s' =>
         match n with
         | O => k pre' s'
         | S n' =>
             match loop n' pre' s' with
             | Some x => Some x
             | None => k pre' s'
             end
         end).

(** Backtracking matcher.  The subject is cut at the current position:
    [pre] holds the characters before it, nearest first, [s] those from it
    on.  [k] is what remains to be matched; a failure of [k] makes the
    matcher try its next alternative. *)
Fixpoint rmatch {A : Type} (r : regex) (pre s : str)
    (k : str -> str -> option A) {struct r} : option A :=
  match r with
  | Chr p =>
      match s with
      | c :: s' => if p c then k (c :: pre) s' else None
      | [] => None
      end
  | Cat r1 r2 => rmatch r1 pre s (fun pre' s' => rmatch r2 pre' s' k)
  | Alt r1 r2 =>
      match rmatch r1 pre s k with
      | Some x => Some x
      | None => rmatch r2 pre s k
      end
  | Opt r1 =>
      match rmatch r1 pre s k with
      | Some x => Some x
      | None => k pre s
      end
  | Plus r1 => plus_loop (rmatch r1) k (List.length s) pre s
  | NotBehind p =>
      match pre with
      | c :: _ => if p c then None else k pre s
      | [] => k pre s
      end
  | NotAhead r1 =>
      match rmatch r1 pre s (fun _ _ => Some tt) with
      | Some _ => None
      | None => k pre s
      end
  end.

(** [pattern.match] at the current position: the subject cut at the end of
    the match. *)
Definition match_here (r : regex) (pre s : str) : option (str * str) :=
  rmatch r pre s (fun pre' s' => Some (pre', s')).

(** The spans [(start, end)] of [pattern.finditer], for a pattern that
    matches no empty string: the leftmost match, then on from its end. *)
Fixpoint scan (fuel : nat) (r : regex) (pre s : str) : list (nat * nat) :=
  match fuel with
  | O => []
  | S fuel' =>
      match match_here r pre s with
      | Some (pre', s') =>
          if length s' <? length s
          then (length pre, length pre') :: scan fuel' r pre' s'
          else match s with
               | c :: t => scan fuel' r (c :: pre) t
               | [] => []
               end
      | None =>
          match s with
          | c :: t => scan fuel' r (c :: pre) t
          | [] => []
          end
      end
  end.

Definition finditer (r : regex) (text : str) : list (nat * nat) :=
  scan (S (length text)) r [] text.

(** The pieces [pattern.sub] joins: the text between the matches as it is,
    each match replaced by what the callback returns for it. *)
Fixpoint expand (text : str) (repl : nat -> nat -> outcome str)
    (pos : nat) (spans : list (nat * nat)) : outcome str :=
  match spans with
  | [] => Return (slice text pos (length text))
  | (b, e) :: rest =>
      piece <- repl b e ;;
      tail <- expand text repl e rest ;;
      Return (slice text pos b ++ piece ++ tail)
  end.

Definition re_sub (r : regex) (repl : nat -> nat -> outcome str) (text : str)
  : outcome str :=
  expand text repl 0 (finditer r text).

(* ===================================================================== *)
(** ** [number_pattern], [replace_number] and [process_text] *)
(* ===================================================================== *)

Section Scanner.

Variable U : ucd.

Definition one_of (l : list char) (c : char) : bool := existsb (N.eqb c) l.

(** [(?<![/\w])-?\d+(?:\.\d+)?(?!\w|[-/年月日时分秒%])] *)
Definition number_pattern : regex :=
  Cat (NotBehind (fun c => (c =? c_slash)%N || is_word U c))
 (Cat (Opt (Chr (N.eqb c_minus)))
 (Cat (Plus (Chr (is_decimal U)))
 (Cat (Opt (Cat (Chr (N.eqb c_dot)) (Plus (Chr (is_decimal U)))))
      (NotAhead
         (Alt (Chr (is_word U))
              (Chr (one_of [c_minus; c_slash; c_nian; c_yue; c_ri;
                            c_shi; c_fen; c_miao; c_percent]))))))).

Definition date_chars : list str :=
  [[c_nian]; [c_yue]; [c_ri]; [c_shi]; [c_fen]; [c_miao];
   [c_minus]; [c_slash]; [c_dot]; [c_percent]].

(** The callback of [process_text], for the match [text[start:end_]]. *)
Definition replace_number (text : str) (start end_ : nat) : outcome str :=
  let num_str := slice text start end_ in
  let before :=
    if 0 <? start then slice text (Nat.max 0 (start - 1)) start else [] in
  let after :=
    if end_ <? length text then slice text end_ (end_ + 1) else [] in
  if str_in before date_chars || str_in after date_chars then Return num_str
  else if (length num_str =? 4) && isdigit U num_str then
    year_num <- py_int U num_str ;;
    if (1900 <=? year_num)%Z && (year_num <=? 2999)%Z then
      let next_chars :=
        if end_ + 2 <=? length text then slice text end_ (end_ + 2)
        else skipn end_ text in
      if existsb (fun c => contains c next_chars) [c_nian; c_minus; c_slash]
      then Return num_str
      else format_number U num_str
    else format_number U num_str
  else format_number U num_str.

Definition process_text (text : str) : outcome str :=
  re_sub number_pattern (replace_number text) text.

End Scanner.

(* ===================================================================== *)
(** ** Paragraphs and documents *)
(* ===================================================================== *)

(** A run: its text, the [w:fill] of its [w:shd] if it has one, and the
    rest of its formatting, which the formatter never looks at.  The text
    of a paragraph is the texts of its runs, joined. *)
Record run : Type := {
  run_text : str;
  run_fill : option str;
  run_rest : nat
}.

Record paragraph : Type := { runs : list run }.

Definition paragraph_text (p : paragraph) : str :=
  concat (map run_text (runs p)).

Definition yellow : str := lit "FFFF00".

Record cell : Type := { cell_paragraphs : list paragraph }.
Record row : Type := { cells : list cell }.
Record table : Type := { rows : list row }.
Record document : Type := { paragraphs : list paragraph; tables : list table }.

(** The dictionary [process_document] returns. *)
Record result (path : Type) : Type := {
  success : bool;
  message : str;
  output_file : option path
}.

(** [for x in xs: f(x)] where [f] may raise. *)
Fixpoint for_each {A : Type} (f : A -> outcome A) (xs : list A) : outcome (list A) :=
  match xs with
  | [] => Return []
  | x :: xs' =>
      x' <- f x ;;
      xs'' <- for_each f xs' ;;
      Return (x' :: xs'')
  end.

Section Walker.

Variable U : ucd.

(** The loop over [enumerate(paragraph.runs)], from index [i] on. *)
Fixpoint rewrite_runs (i : nat) (formatted_full_text : str) (rs : list run)
  : list run :=
  match rs with
  | [] => []
  | r :: rs' =>
      (if i =? 0
       then {| run_text := formatted_full_text;
               run_fill := Some yellow;
               run_rest := run_rest r |}
       else {| run_text := [];
               run_fill := run_fill r;
               run_rest := run_rest r |})
      :: rewrite_runs (S i) formatted_full_text rs'
  end.

Definition process_paragraph (p : paragraph) : outcome paragraph :=
  let full_text := paragraph_text p in
  if (match full_text with [] => true | _ => false end)
     || (match runs p with [] => true | _ => false end)
  then Return p
  else
    formatted_full_text <- process_text U full_text ;;
    if str_eqb full_text formatted_full_text then Return p
    else Return {| runs := rewrite_runs 0 formatted_full_text (runs p) |}.

Definition process_table_cell (c : cell) : outcome cell :=
  ps <- for_each process_paragraph (cell_paragraphs c) ;;
  Return {| cell_paragraphs := ps |}.

Definition process_row (r : row) : outcome row :=
  cs <- for_each process_table_cell (cells r) ;;
  Return {| cells := cs |}.

Definition process_table (t : table) : outcome table :=
  rs <- for_each process_row (rows t) ;;
  Return {| rows := rs |}.

(** The document container: opening a path and saving to one are the
    library's, and either can raise. *)
Variable path : Type.
Variable open_document : path -> outcome document.
Variable save_document : document -> path -> outcome unit.

Definition msg_done : str :=
  [22788; 29702; 23436; 25104; 65281; 10;
   22788; 29702; 27573; 33853; 25968; 65306]%N.
Definition msg_tables : str :=
  [10; 22788; 29702; 34920; 26684; 25968; 65306]%N.
Definition msg_failed : str :=
  [22788; 29702; 22833; 36133; 65306]%N.

(** The body of the [try] of [process_document]: the document handed to
    [save], the two counters and the path written. *)
Definition process_document_try (input_file : path) (output_file : option path)
  : outcome (document * nat * nat * path) :=
  doc <- open_document input_file ;;
  ps <- for_each process_paragraph (paragraphs doc) ;;
  let paragraph_count := length (paragraphs doc) in
  ts <- for_each process_table (tables doc) ;;
  let table_count := length (tables doc) in
  let output_file :=
    match output_file with
    | None => input_file
    | Some f => f
    end in
  let doc' := {| paragraphs := ps; tables := ts |} in
  _ <- save_document doc' output_file ;;
  Return (doc', paragraph_count, table_count, output_file).

Definition process_document (input_file : path) (output_file : option path)
  : result path :=
  match process_document_try input_file output_file with
  | Return (_, paragraph_count, table_count, output_file) =>
      {| success := true;
         message := msg_done ++ str_of_N (N.of_nat paragraph_count)
                    ++ msg_tables ++ str_of_N (N.of_nat table_count);
         output_file := Some output_file |}
  | Raise e =>
      {| success := false;
         message := msg_failed ++ exn_str e;
         output_file := None |}
  end.

End Walker.

(* ===================================================================== *)
(** ** Notions the statements below are written with *)
(* ===================================================================== *)

(** A table with nothing but ASCII and the CJK block in it. *)
Definition ascii_only : ucd := fun _ => UOther.

(** The number a run of decimal digits denotes, most significant first. *)
Fixpoint value_of (U : ucd) (acc : N) (ds : str) : N :=
  match ds with
  | [] => acc
  | c :: t =>
      value_of U (10 * acc + match to_decimal U c with
                             | Some d => d
                             | None => 0
                             end)%N t
  end.

(** A string with its commas taken out. *)
Definition without_commas (s : str) : str :=
  filter (fun c => negb (c =? c_comma)%N) s.

Definition no_comma (s : str) : Prop := forall c, In c s -> c <> c_comma.

(** The part of [num_str] that [format_number] hands to [int]: what comes
    after the sign and before the first point. *)
Definition integer_part_of (num_str : str) : str :=
  hd [] (split c_dot (if startswith_minus num_str then tl num_str else num_str)).

(** A literal of the grammar: optional minus sign, integer digits,
    optional point and decimal digits. *)
Definition literal (neg : bool) (ip : str) (dec : option str) : str :=
  (if neg then [c_minus] else [])
  ++ ip ++ match dec with Some d => c_dot :: d | None => [] end.

(** The integer part has a digit zero in front of another digit. *)
Definition has_leading_zero (U : ucd) (ip : str) : Prop :=
  match ip with
  | z :: _ :: _ => to_decimal U z = Some 0%N
  | _ => False
  end.

(** The longest prefix of characters of a class, and the rest. *)
Fixpoint span (p : char -> bool) (s : str) : str * str :=
  match s with
  | c :: t =>
      if p c then let '(d, r) := span p t in (c :: d, r) else ([], s)
  | [] => ([], [])
  end.

(** The lookbehind of [number_pattern], on the characters before. *)
Definition behind_ok (U : ucd) (pre : str) : bool :=
  match pre with
  | c :: _ => negb ((c =? c_slash)%N || is_word U c)
  | [] => true
  end.

(** The lookahead of [number_pattern], on the characters after. *)
Definition ahead_ok (U : ucd) (s : str) : bool :=
  match s with
  | c :: _ =>
      negb (is_word U c
            || one_of [c_minus; c_slash; c_nian; c_yue; c_ri;
                       c_shi; c_fen; c_miao; c_percent] c)
  | [] => true
  end.

(** The match of [number_pattern] at a position, read off the pattern: the
    text matched and what follows it.  The integer digits are all the
    digits there are; the fraction is taken whole or, when what follows it
    is refused, not at all. *)
Definition number_at (U : ucd) (pre s : str) : option (str * str) :=
  if behind_ok U pre then
    let '(sign, s1) :=
      match s with
      | c :: t => if (c_minus =? c)%N then ([c], t) else ([], s)
      | [] => ([], s)
      end in
    match span (is_decimal U) s1 with
    | ([], _) => None
    | (d1, s2) =>
        match s2 with
        | c :: t =>
            if (c_dot =? c)%N then
              match span (is_decimal U) t with
              | ([], _) => Some (sign ++ d1, s2)
              | (d2, s3) =>
                  if ahead_ok U s3 then Some (sign ++ d1 ++ c :: d2, s3)
                  else Some (sign ++ d1, s2)
              end
            else if ahead_ok U s2 then Some (sign ++ d1, s2) else None
        | [] => Some (sign ++ d1, [])
        end
    end
  else None.

(** [text[b:e]] is what [number_pattern] matches at position [b]. *)
Definition matched_at (U : ucd) (text : str) (b e : nat) : Prop :=
  exists m rest,
    number_at U (rev (firstn b text)) (skipn b text) = Some (m, rest)
    /\ e = b + List.length m.

(** The spans of a scan follow one another from [pos] on, inside [len]. *)
Fixpoint chain (pos : nat) (spans : list (nat * nat)) (len : nat) : Prop :=
  match spans with
  | [] => pos <= len
  | (b, e) :: rest => pos <= b /\ b <= e /\ chain e rest len
  end.

(** The character just before position [b], if there is one. *)
Definition char_before (text : str) (b : nat) : option char :=
  match b with
  | O => None
  | S i => nth_error text i
  end.

(** The character at position [e], just after a match ending there. *)
Definition char_after (text : str) (e : nat) : option char := nth_error text e.

(** The ten date, time and percent delimiters. *)
Definition is_date_char (c : char) : bool :=
  one_of [c_nian; c_yue; c_ri; c_shi; c_fen; c_miao;
          c_minus; c_slash; c_dot; c_percent] c.

(** The character before the span or the one after it is a delimiter. *)
Definition delimiter_adjacent (text : str) (b e : nat) : bool :=
  match char_before text b with Some c => is_date_char c | None => false end
  || match char_after text e with Some c => is_date_char c | None => false end.

(** One of the two characters after position [e] is a year marker, a
    hyphen or a slash. *)
Definition year_context (text : str) (e : nat) : bool :=
  existsb (one_of [c_nian; c_minus; c_slash]) (firstn 2 (skipn e text)).

(** The year test of [replace_number] on a literal: four digits, no sign,
    no point, between 1900 and 2999. *)
Definition year_like (U : ucd) (neg : bool) (ip : str) (dec : option str) : bool :=
  negb neg
  && match dec with None => true | Some _ => false end
  && (List.length ip =? 4)
  && (1900 <=? Z.of_N (value_of U 0 ip))%Z
  && (Z.of_N (value_of U 0 ip) <=? 2999)%Z.

(** A run emptied, its formatting kept. *)
Definition cleared (r : run) : run :=
  {| run_text := []; run_fill := run_fill r; run_rest := run_rest r |}.

(** The run that receives the whole new text and the highlight. *)
Definition highlighted (formatted : str) (r : run) : run :=
  {| run_text := formatted; run_fill := Some yellow; run_rest := run_rest r |}.

(** The result of a failed run. *)
Definition failure (path : Type) (e : exn) : result path :=
  {| success := false; message := msg_failed ++ exn_str e; output_file := None |}.

(** The spans lie inside [len], each non-empty, from [pos] on and with at
    least one character between two of them. *)
Fixpoint apart (pos : nat) (spans : list (nat * nat)) (len : nat) : Prop :=
  match spans with
  | [] => True
  | (b, e) :: rest => pos <= b /\ b < e /\ e <= len /\ apart (S e) rest len
  end.

(** A string without its decimal digits and its commas. *)
Definition skeleton (U : ucd) (s : str) : str :=
  filter (fun c => negb (is_decimal U c || (c =? c_comma)%N)) s.

(** [p'] has as many runs as [p], and as its text what [process_text]
    makes of the text of [p]. *)
Definition text_processed (U : ucd) (p p' : paragraph) : Prop :=
  process_text U (paragraph_text p) = Return (paragraph_text p')
  /\ List.length (runs p') = List.length (runs p).

Definition cell_processed (U : ucd) (c c' : cell) : Prop :=
  Forall2 (text_processed U) (cell_paragraphs c) (cell_paragraphs c').

Definition row_processed (U : ucd) (r r' : row) : Prop :=
  Forall2 (cell_processed U) (cells r) (cells r').

Definition table_processed (U : ucd) (t t' : table) : Prop :=
  Forall2 (row_processed U) (rows t) (rows t').

(** A table in which the superscript two, U+00B2, is a digit without
    being a decimal digit, as in Unicode. *)
Definition with_superscript_two : ucd :=
  fun c => if (c =? 178)%N then UDigit else UOther.

Ltac date_char_cases H :=
  unfold is_date_char, one_of in H; cbn [existsb] in H;
  repeat (apply orb_prop in H as [H|H]); try discriminate H;
  apply N.eqb_eq in H; subst.

Ltac norm_rev :=
  repeat (cbn [rev app]; rewrite ?rev_app_distr; rewrite <- ?app_assoc);
  cbn [rev app]; try reflexivity.

(* ===================================================================== *)
(** ** Strings *)
(* ===================================================================== *)

Lemma str_eqb_eq (a b : str) : str_eqb a b = true <-> a = b.
Proof.
  unfold str_eqb. destruct (list_eq_dec N.eq_dec a b); split; congruence.
Qed.

(* ===================================================================== *)
(** ** Decimal text *)
(* ===================================================================== *)

Lemma digits_fuel_app fuel : forall n acc,
  digits_fuel fuel n acc = digits_fuel fuel n [] ++ acc.
Proof.
  induction fuel as [|f IH]; intros n acc; simpl.
  - reflexivity.
  - destruct (n <? 10)%N; [reflexivity|].
    rewrite IH. rewrite (IH _ [_]). rewrite <- app_assoc. reflexivity.
Qed.

Lemma log2_div10 n : (10 <= n)%N -> (N.log2 (n / 10) < N.log2 n)%N.
Proof.
  intros H.
  assert (Hle : (n / 10 <= n / 2)%N).
  { apply N.div_le_compat_l. lia. }
  assert (H2 : (N.log2 (n / 2) < N.log2 n)%N).
  { rewrite <- N.div2_div, N.div2_spec, N.log2_shiftr.
    assert (0 < N.log2 n)%N by (apply N.log2_pos; lia). lia. }
  pose proof (N.log2_le_mono _ _ Hle). lia.
Qed.

Lemma digits_fuel_enough f1 : forall f2 n acc,
  N.to_nat (N.log2 n) <= f1 -> N.to_nat (N.log2 n) <= f2 ->
  digits_fuel f1 n acc = digits_fuel f2 n acc.
Proof.
  induction f1 as [|f1 IH]; intros f2 n acc H1 H2.
  - destruct f2 as [|f2]; [reflexivity|]. simpl.
    destruct (N.ltb_spec n 10) as [Hn|Hn]; [reflexivity|].
    pose proof (log2_div10 _ Hn). lia.
  - destruct f2 as [|f2]; simpl.
    + destruct (N.ltb_spec n 10) as [Hn|Hn]; [reflexivity|].
      pose proof (log2_div10 _ Hn). lia.
    + destruct (N.ltb_spec n 10) as [Hn|Hn]; [reflexivity|].
      pose proof (log2_div10 _ Hn). apply IH; lia.
Qed.

(** The defining equation of [str(n)]. *)
Lemma str_of_N_eq n :
  str_of_N n =
  if (n <? 10)%N then [(c_zero + n)%N]
  else str_of_N (n / 10) ++ [(c_zero + n mod 10)%N].
Proof.
  unfold str_of_N.
  destruct (N.ltb_spec n 10) as [Hn|Hn].
  - destruct (N.to_nat (N.log2 n)); simpl.
    + rewrite N.mod_small by lia. reflexivity.
    + destruct (N.ltb_spec n 10); [|lia].
      rewrite N.mod_small by lia. reflexivity.
  - pose proof (log2_div10 _ Hn) as Hl.
    destruct (N.to_nat (N.log2 n)) as [|f] eqn:Ef; [lia|].
    cbn [digits_fuel]. destruct (N.ltb_spec n 10); [lia|].
    rewrite digits_fuel_app.
    rewrite (digits_fuel_enough f (N.to_nat (N.log2 (n / 10)))); [reflexivity| |].
    + generalize dependent (N.log2 (n / 10)). generalize dependent (N.log2 n).
      intros; lia.
    + lia.
Qed.

(** Induction on a number along its decimal digits. *)
Lemma N_digit_ind (P : N -> Prop) :
  (forall n, (n < 10)%N -> P n) ->
  (forall n, (10 <= n)%N -> P (n / 10)%N -> P n) ->
  forall n, P n.
Proof.
  intros Hb Hs n.
  induction n as [n IH] using (well_founded_induction N.lt_wf_0).
  destruct (N.ltb_spec n 10) as [Hn|Hn]; [now apply Hb|].
  apply Hs; [exact Hn|]. apply IH.
  apply N.div_lt; lia.
Qed.

Lemma str_of_N_ascii_digits n : forallb ascii_digit (str_of_N n) = true.
Proof.
  induction n as [n Hn|n Hn IH] using N_digit_ind; rewrite str_of_N_eq.
  - destruct (N.ltb_spec n 10); [|lia]. cbn [forallb].
    unfold ascii_digit, c_zero. rewrite andb_true_r.
    apply andb_true_intro; split; [apply N.leb_le|apply N.leb_le]; lia.
  - destruct (N.ltb_spec n 10); [lia|].
    rewrite forallb_app, IH. cbn [forallb andb]. rewrite andb_true_r. clear IH.
    assert (n mod 10 < 10)%N by (apply N.mod_upper_bound; lia).
    unfold ascii_digit, c_zero.
    generalize dependent (n mod 10)%N. intros m Hm.
    apply andb_true_intro; split; apply N.leb_le; lia.
Qed.

Lemma str_of_N_nonempty n : str_of_N n <> [].
Proof.
  rewrite str_of_N_eq. destruct (n <? 10)%N; [discriminate|].
  destruct (str_of_N (n / 10)); discriminate.
Qed.

Lemma str_of_N_small n : (n < 1000)%N -> List.length (str_of_N n) <= 3.
Proof.
  intros H. rewrite str_of_N_eq.
  destruct (N.ltb_spec n 10); [simpl; lia|].
  rewrite length_app. simpl.
  rewrite str_of_N_eq.
  destruct (N.ltb_spec (n / 10) 10); [simpl; lia|].
  rewrite length_app. simpl.
  rewrite str_of_N_eq.
  destruct (N.ltb_spec (n / 10 / 10) 10); [simpl; lia|].
  exfalso.
  assert (n / 10 / 10 < 10)%N; [|lia].
  rewrite N.Div0.div_div. apply N.Div0.div_lt_upper_bound; lia.
Qed.

Section DecimalFacts.

Variable U : ucd.

Lemma ascii_digit_class c : ascii_digit c = true -> class_of U c = UDecimal (c - 48)%N.
Proof.
  intros H. unfold class_of. rewrite H.
  unfold ascii_digit in H. apply andb_prop in H as [H1 H2].
  apply N.leb_le in H1, H2.
  unfold is_ascii. destruct (N.ltb_spec c 128); [reflexivity|lia].
Qed.

Lemma ascii_digit_decimal c : ascii_digit c = true -> is_decimal U c = true.
Proof.
  intros H. unfold is_decimal, to_decimal. now rewrite ascii_digit_class.
Qed.

Lemma to_decimal_lt10 c d : to_decimal U c = Some d -> (d < 10)%N.
Proof.
  unfold to_decimal, class_of.
  destruct (is_ascii c).
  - destruct (ascii_digit c) eqn:E.
    + intros [= <-]. unfold ascii_digit in E. apply andb_prop in E as [H1 H2].
      apply N.leb_le in H1, H2. lia.
    + destruct (ascii_alpha c); [discriminate|].
      destruct (_ || _); discriminate.
  - destruct (cjk_ideograph c); [discriminate|].
    destruct (U c); try discriminate.
    destruct (N.ltb_spec v 10); [|discriminate].
    intros [= <-]. assumption.
Qed.

Lemma is_decimal_word c : is_decimal U c = true -> is_word U c = true.
Proof.
  unfold is_decimal, to_decimal, is_word, is_alnum.
  destruct (class_of U c); try discriminate. reflexivity.
Qed.

Lemma is_decimal_digit c : is_decimal U c = true -> is_digit U c = true.
Proof.
  unfold is_decimal, to_decimal, is_digit.
  destruct (class_of U c); try discriminate. reflexivity.
Qed.

(** What [int] makes of a decimal digit before it reads it. *)
Lemma transform_decimal c d :
  to_decimal U c = Some d ->
  exists c', transform_decimal_and_space U [c] = [c']
             /\ ascii_digit c' = true /\ (c' - 48 = d)%N.
Proof.
  intros H. pose proof (to_decimal_lt10 _ _ H) as Hd.
  unfold transform_decimal_and_space. simpl.
  destruct (N.ltb_spec c 127) as [Hc|Hc].
  - exists c. split; [reflexivity|].
    unfold to_decimal, class_of in H.
    unfold is_ascii in H. destruct (N.ltb_spec c 128); [|lia].
    destruct (ascii_digit c) eqn:E.
    + injection H as <-. split; reflexivity.
    + destruct (ascii_alpha c); [discriminate|].
      destruct (_ || _); discriminate.
  - unfold is_space, to_decimal in *.
    destruct (class_of U c); try discriminate.
    injection H as ->. exists (c_zero + d)%N.
    split; [reflexivity|]. unfold c_zero, ascii_digit.
    split; [apply andb_true_intro; split; apply N.leb_le; lia | lia].
Qed.

Lemma transform_cons c s :
  transform_decimal_and_space U (c :: s)
  = transform_decimal_and_space U [c] ++ transform_decimal_and_space U s.
Proof. reflexivity. Qed.

Lemma digits_loop_decimals ds : forall acc,
  forallb (is_decimal U) ds = true ->
  digits_loop acc (transform_decimal_and_space U ds) = (value_of U acc ds, []).
Proof.
  induction ds as [|c ds IH]; intros acc H; [reflexivity|].
  simpl in H. apply andb_prop in H as [Hc Hds].
  unfold is_decimal in Hc. destruct (to_decimal U c) as [d|] eqn:E; [|discriminate].
  destruct (transform_decimal _ _ E) as (c' & Ht & Hdig & Hval).
  rewrite transform_cons, Ht. cbn [app digits_loop value_of].
  rewrite Hdig, E, Hval. apply IH, Hds.
Qed.

(** [int] of a non-empty run of decimal digits is the number they denote. *)
Lemma py_int_decimals ds :
  ds <> [] -> forallb (is_decimal U) ds = true ->
  py_int U ds = Return (Z.of_N (value_of U 0 ds)).
Proof.
  intros Hne H. unfold py_int, long_from_string.
  pose proof (digits_loop_decimals ds 0%N H) as Hloop.
  destruct ds as [|c ds]; [congruence|].
  simpl in H. apply andb_prop in H as [Hc Hds].
  unfold is_decimal in Hc. destruct (to_decimal U c) as [d|] eqn:E; [|discriminate].
  destruct (transform_decimal _ _ E) as (c' & Ht & Hdig & Hval).
  rewrite transform_cons, Ht in Hloop. rewrite transform_cons, Ht.
  cbn [app] in *.
  assert (Hsp : ascii_space c' = false).
  { unfold ascii_digit in Hdig. apply andb_prop in Hdig as [H1 H2].
    apply N.leb_le in H1, H2. unfold ascii_space.
    destruct (N.leb_spec 9 c'), (N.leb_spec c' 13), (N.eqb_spec c' 32);
      simpl; try reflexivity; lia. }
  cbn [skip_spaces]. rewrite Hsp.
  assert (Hp : (c' =? c_plus)%N = false).
  { unfold ascii_digit in Hdig. apply andb_prop in Hdig as [H1 H2].
    apply N.leb_le in H1, H2. apply N.eqb_neq. unfold c_plus. lia. }
  assert (Hm : (c' =? c_minus)%N = false).
  { unfold ascii_digit in Hdig. apply andb_prop in Hdig as [H1 H2].
    apply N.leb_le in H1, H2. apply N.eqb_neq. unfold c_minus. lia. }
  rewrite Hp, Hm, Hdig, Hloop. reflexivity.
Qed.

Lemma value_of_app ds : forall acc c,
  value_of U acc (ds ++ [c])
  = (10 * value_of U acc ds
     + match to_decimal U c with Some d => d | None => 0 end)%N.
Proof.
  induction ds as [|a ds IH]; intros acc c; simpl; [reflexivity|apply IH].
Qed.

Lemma to_decimal_ascii n : (n < 10)%N -> to_decimal U (c_zero + n)%N = Some n.
Proof.
  intros H. unfold to_decimal.
  rewrite ascii_digit_class.
  - unfold c_zero. f_equal. lia.
  - unfold ascii_digit, c_zero. apply andb_true_intro; split; apply N.leb_le; lia.
Qed.

(** Reading back the decimal text of a number gives the number. *)
Lemma value_of_str_of_N n : value_of U 0 (str_of_N n) = n.
Proof.
  induction n as [n Hn|n Hn IH] using N_digit_ind; rewrite str_of_N_eq.
  - destruct (N.ltb_spec n 10); [|lia]. cbn [value_of].
    rewrite to_decimal_ascii by assumption. reflexivity.
  - destruct (N.ltb_spec n 10); [lia|].
    rewrite value_of_app, IH, to_decimal_ascii by (apply N.mod_upper_bound; lia).
    symmetry. apply N.div_mod. lia.
Qed.

Lemma str_of_N_decimals n : forallb (is_decimal U) (str_of_N n) = true.
Proof.
  pose proof (str_of_N_ascii_digits n) as H.
  rewrite forallb_forall in *. intros c Hc. apply ascii_digit_decimal, H, Hc.
Qed.

Lemma py_int_str_of_N n : py_int U (str_of_N n) = Return (Z.of_N n).
Proof.
  rewrite py_int_decimals.
  - now rewrite value_of_str_of_N.
  - apply str_of_N_nonempty.
  - apply str_of_N_decimals.
Qed.

End DecimalFacts.

(* ===================================================================== *)
(** ** Grouping by three *)
(* ===================================================================== *)

Lemma list_ind3 (P : str -> Prop) :
  P [] -> (forall a, P [a]) -> (forall a b, P [a; b]) -> (forall a b c, P [a; b; c]) ->
  (forall a b c d rest, P (d :: rest) -> P (a :: b :: c :: d :: rest)) ->
  forall l, P l.
Proof.
  intros H0 H1 H2 H3 Hs l.
  assert (H : forall n l, List.length l <= n -> P l).
  { clear l. induction n as [|n IH]; intros l Hl.
    - destruct l; [exact H0|simpl in Hl; lia].
    - destruct l as [|a [|b [|c [|d rest]]]]; auto.
      apply Hs, IH. simpl in *. lia. }
  apply (H (List.length l)). lia.
Qed.

Lemma group_rev_short ds : List.length ds <= 3 -> group_rev ds = ds.
Proof.
  destruct ds as [|a [|b [|c [|d rest]]]]; simpl; intros; try reflexivity; lia.
Qed.

Lemma no_comma_cons c s : no_comma (c :: s) -> c <> c_comma /\ no_comma s.
Proof.
  intros H. split; [apply H; now left|]. intros x Hx. apply H. now right.
Qed.

Lemma without_commas_keep c s :
  c <> c_comma -> without_commas (c :: s) = c :: without_commas s.
Proof.
  intros H. unfold without_commas. simpl.
  destruct (N.eqb_spec c c_comma); [contradiction|reflexivity].
Qed.

Lemma group_rev_without_commas ds :
  no_comma ds -> without_commas (group_rev ds) = ds.
Proof.
  induction ds as [|a|a b|a b c|a b c d rest IH] using list_ind3; intros H.
  - reflexivity.
  - apply no_comma_cons in H as [Ha _]. cbn [group_rev]. now rewrite without_commas_keep.
  - apply no_comma_cons in H as [Ha H]. apply no_comma_cons in H as [Hb _].
    cbn [group_rev]. now rewrite !without_commas_keep.
  - apply no_comma_cons in H as [Ha H]. apply no_comma_cons in H as [Hb H].
    apply no_comma_cons in H as [Hc _].
    cbn [group_rev]. now rewrite !without_commas_keep.
  - apply no_comma_cons in H as [Ha H]. apply no_comma_cons in H as [Hb H].
    apply no_comma_cons in H as [Hc H].
    change (group_rev (a :: b :: c :: d :: rest))
      with (a :: b :: c :: c_comma :: group_rev (d :: rest)).
    rewrite !without_commas_keep by assumption.
    unfold without_commas at 1. cbn [filter]. rewrite N.eqb_refl. cbn [negb].
    fold (without_commas (group_rev (d :: rest))). now rewrite IH.
Qed.

(** Counting from the first element, the commas of the grouped digits sit
    at the positions 3, 7, 11, ... and nowhere else. *)
Lemma group_rev_nth ds :
  no_comma ds ->
  forall i, i < List.length (group_rev ds) ->
    (nth i (group_rev ds) c_zero = c_comma <-> exists k, i = 4 * k + 3).
Proof.
  induction ds as [|a|a b|a b c|a b c d rest IH] using list_ind3; intros H i Hi.
  - simpl in Hi. lia.
  - apply no_comma_cons in H as [Ha _]. simpl in Hi.
    destruct i as [|i]; [|lia]. simpl. split; [contradiction|intros [k Hk]; lia].
  - apply no_comma_cons in H as [Ha H]. apply no_comma_cons in H as [Hb _].
    simpl in Hi. destruct i as [|[|i]]; [| |lia]; simpl;
      (split; [contradiction|intros [k Hk]; lia]).
  - apply no_comma_cons in H as [Ha H]. apply no_comma_cons in H as [Hb H].
    apply no_comma_cons in H as [Hc _].
    simpl in Hi. destruct i as [|[|[|i]]]; [| | |lia]; simpl;
      (split; [contradiction|intros [k Hk]; lia]).
  - apply no_comma_cons in H as [Ha H]. apply no_comma_cons in H as [Hb H].
    apply no_comma_cons in H as [Hc H].
    change (group_rev (a :: b :: c :: d :: rest))
      with (a :: b :: c :: c_comma :: group_rev (d :: rest)) in *.
    destruct i as [|[|[|[|i]]]]; cbn [nth].
    + split; [contradiction|intros [k Hk]; lia].
    + split; [contradiction|intros [k Hk]; lia].
    + split; [contradiction|intros [k Hk]; lia].
    + split; [intros _; exists 0; lia|reflexivity].
    + cbn [List.length] in Hi. rewrite IH by (assumption || lia).
      split; intros [k Hk].
      * exists (S k). lia.
      * destruct k as [|k]; [lia|]. exists k. lia.
Qed.

(** The grouped digits do not end in a comma. *)
Lemma group_rev_last (ds : str) :
  ds <> [] -> no_comma ds -> last (group_rev ds) c_zero <> c_comma.
Proof.
  induction ds as [|a|a b|a b c|a b c d rest IH] using list_ind3; intros Hne H.
  - congruence.
  - apply no_comma_cons in H as [Ha _]. exact Ha.
  - apply no_comma_cons in H as [Ha H]. apply no_comma_cons in H as [Hb _]. exact Hb.
  - apply no_comma_cons in H as [Ha H]. apply no_comma_cons in H as [Hb H].
    apply no_comma_cons in H as [Hc _]. exact Hc.
  - apply no_comma_cons in H as [Ha H]. apply no_comma_cons in H as [Hb H].
    apply no_comma_cons in H as [Hc H].
    change (group_rev (a :: b :: c :: d :: rest))
      with (a :: b :: c :: c_comma :: group_rev (d :: rest)).
    assert (Hg : group_rev (d :: rest) <> []).
    { destruct rest as [|e [|f [|g r]]]; discriminate. }
    destruct (group_rev (d :: rest)) as [|x xs] eqn:E; [congruence|].
    change (last (x :: xs) c_zero <> c_comma).
    apply IH; [discriminate|assumption].
Qed.

Lemma ascii_digits_no_comma s : forallb ascii_digit s = true -> no_comma s.
Proof.
  intros H c Hc. rewrite forallb_forall in H. specialize (H c Hc).
  intros ->. discriminate.
Qed.

Lemma no_comma_rev s : no_comma s -> no_comma (rev s).
Proof. intros H c Hc. apply H. now apply in_rev. Qed.

Lemma without_commas_rev s : without_commas (rev s) = rev (without_commas s).
Proof.
  unfold without_commas. induction s as [|c s IH]; [reflexivity|].
  cbn [rev filter]. rewrite filter_app, IH. cbn [filter].
  destruct (negb (c =? c_comma)%N); cbn [rev]; [reflexivity|now rewrite app_nil_r].
Qed.

Lemma format_comma_of_N n :
  format_comma (Z.of_N n) = rev (group_rev (rev (str_of_N n))).
Proof.
  unfold format_comma. rewrite Zabs2N.id.
  destruct (Z.ltb_spec (Z.of_N n) 0); [lia|reflexivity].
Qed.

Lemma hd_rev_last (s : str) d : hd d (rev s) = last s d.
Proof.
  induction s as [|c s IH]; [reflexivity|].
  simpl. destruct s as [|c' s']; [reflexivity|].
  rewrite <- IH. simpl. destruct (rev s' ++ [c']) eqn:E; [|reflexivity].
  destruct (rev s'); discriminate.
Qed.

(* ===================================================================== *)
(** ** [format_number] on the literals of the grammar *)
(* ===================================================================== *)

Section FormatNumberFacts.

Variable U : ucd.

Lemma contains_false_iff c s : contains c s = false <-> ~ In c s.
Proof.
  unfold contains. split.
  - intros H Hin. assert (existsb (N.eqb c) s = true); [|congruence].
    apply existsb_exists. exists c. split; [assumption|apply N.eqb_refl].
  - intros H. destruct (existsb (N.eqb c) s) eqn:E; [|reflexivity].
    apply existsb_exists in E as (x & Hx & Hcx). apply N.eqb_eq in Hcx. now subst.
Qed.

Lemma decimals_no_char c s :
  is_decimal U c = false -> forallb (is_decimal U) s = true -> contains c s = false.
Proof.
  intros Hc H. apply contains_false_iff. intros Hin.
  rewrite forallb_forall in H. rewrite (H c Hin) in Hc. discriminate.
Qed.

Lemma split_no_sep sep s : contains sep s = false -> split sep s = [s].
Proof.
  induction s as [|c s IH]; intros H; [reflexivity|].
  simpl in H. apply orb_false_elim in H as [H1 H2].
  simpl. rewrite N.eqb_sym, H1, IH by assumption. reflexivity.
Qed.

Lemma split_one_sep sep a b :
  contains sep a = false -> contains sep b = false ->
  split sep (a ++ sep :: b) = [a; b].
Proof.
  induction a as [|c a IH]; intros Ha Hb.
  - simpl. rewrite N.eqb_refl, split_no_sep by assumption. reflexivity.
  - simpl in Ha. apply orb_false_elim in Ha as [H1 H2].
    simpl. rewrite N.eqb_sym, H1, IH by assumption. reflexivity.
Qed.

Lemma contains_app c a b : contains c (a ++ b) = contains c a || contains c b.
Proof. unfold contains. apply existsb_app. Qed.

Lemma contains_mid c a b : contains c (a ++ c :: b) = true.
Proof.
  rewrite contains_app. unfold contains at 2. cbn [existsb].
  rewrite N.eqb_refl. cbn [orb]. apply orb_true_r.
Qed.

Lemma startswith_minus_decimals s t :
  s <> [] -> forallb (is_decimal U) s = true -> startswith_minus (s ++ t) = false.
Proof.
  destruct s as [|c s]; [congruence|]. intros _ H. simpl in *.
  apply andb_prop in H as [Hc _].
  destruct (N.eqb_spec c c_minus) as [->|]; [discriminate|reflexivity].
Qed.

(** The unsigned part of a literal: digits, then maybe a point and more
    digits. *)
Lemma format_number_try_literal neg ip (dec : option str) :
  ip <> [] -> forallb (is_decimal U) ip = true ->
  (forall d, dec = Some d -> forallb (is_decimal U) d = true) ->
  format_number_try U neg
    (ip ++ match dec with Some d => c_dot :: d | None => [] end)
  = Return ((if neg then [c_minus] else [])
            ++ format_comma (Z.of_N (value_of U 0 ip))
            ++ match dec with Some d => c_dot :: d | None => [] end).
Proof.
  intros Hne Hip Hdec. unfold format_number_try.
  assert (Hdot : contains c_dot ip = false) by (now apply decimals_no_char).
  destruct dec as [d|].
  - assert (Hd : contains c_dot d = false).
    { apply decimals_no_char; [reflexivity|now apply Hdec]. }
    rewrite contains_mid.
    rewrite split_one_sep by assumption.
    rewrite py_int_decimals by assumption. cbn [bind].
    destruct neg; cbn [app]; rewrite <- ?app_assoc; reflexivity.
  - rewrite app_nil_r, Hdot, py_int_decimals by assumption. cbn [bind].
    destruct neg; rewrite ?app_nil_r; reflexivity.
Qed.

Lemma format_number_literal_eq (neg : bool) ip (dec : option str) :
  ip <> [] -> forallb (is_decimal U) ip = true ->
  (forall d, dec = Some d -> forallb (is_decimal U) d = true) ->
  format_number U
    ((if neg then [c_minus] else [])
     ++ ip ++ match dec with Some d => c_dot :: d | None => [] end)
  = Return ((if neg then [c_minus] else [])
            ++ format_comma (Z.of_N (value_of U 0 ip))
            ++ match dec with Some d => c_dot :: d | None => [] end).
Proof.
  intros Hne Hip Hdec. unfold format_number. destruct neg.
  - cbn [app startswith_minus]. rewrite N.eqb_refl. cbn [tl].
    now rewrite format_number_try_literal.
  - cbn [app]. rewrite startswith_minus_decimals by assumption.
    now rewrite format_number_try_literal.
Qed.

Lemma long_from_string_raises s e :
  long_from_string s = Raise e -> exists m, e = ValueError m.
Proof.
  unfold long_from_string. cbv zeta.
  assert (H : forall ng s2,
    match s2 with
    | c :: _ =>
        if ascii_digit c then
          let '(v, rest) := digits_loop 0%N s2 in
          match skip_spaces rest with
          | [] => Return (if ng : bool then (- Z.of_N v)%Z else Z.of_N v)
          | _ :: _ => Raise (ValueError [])
          end
        else Raise (ValueError [])
    | [] => Raise (ValueError [])
    end = Raise e -> exists m, e = ValueError m).
  { intros ng s2. destruct s2 as [|c2 s2]; [intros [= <-]; eauto|].
    destruct (ascii_digit c2); [|intros [= <-]; eauto].
    destruct (digits_loop _ _) as [v rest].
    destruct (skip_spaces rest); [discriminate|intros [= <-]; eauto]. }
  destruct (skip_spaces s) as [|c t]; [apply (H false [])|].
  destruct (c =? c_plus)%N; [apply (H false t)|].
  destruct (c =? c_minus)%N; [apply (H true t)|apply (H false (c :: t))].
Qed.

Lemma py_int_raises s e : py_int U s = Raise e -> exists m, e = ValueError m.
Proof. apply long_from_string_raises. Qed.

Lemma format_number_try_raises neg s e :
  format_number_try U neg s = Raise e -> exists m, e = ValueError m.
Proof.
  unfold format_number_try.
  destruct (contains c_dot s).
  - destruct (split c_dot s) as [|a [|b [|c l]]]; cbn [bind]; try (intros [= <-]; eauto).
    destruct (py_int U a) eqn:E; cbn [bind]; [discriminate|].
    intros [= <-]. eapply py_int_raises, E.
  - destruct (py_int U s) eqn:E; cbn [bind]; [discriminate|].
    intros [= <-]. eapply py_int_raises, E.
Qed.

(** [format_number] returns on every string. *)
Lemma format_number_total s : exists out, format_number U s = Return out.
Proof.
  unfold format_number.
  destruct (format_number_try U _ _) as [r|e] eqn:E; [eauto|].
  apply format_number_try_raises in E as [m ->]. eauto.
Qed.

End FormatNumberFacts.

(** The decimal text of a number has no leading zero, zero itself apart. *)
Lemma str_of_N_canonical n :
  str_of_N n = [c_zero] \/ hd c_zero (str_of_N n) <> c_zero.
Proof.
  induction n as [n Hn|n Hn IH] using N_digit_ind; rewrite str_of_N_eq.
  - destruct (N.ltb_spec n 10); [|lia].
    destruct (N.eq_dec n 0) as [->|Hz]; [now left|right].
    cbn [hd]. unfold c_zero. lia.
  - destruct (N.ltb_spec n 10); [lia|]. right.
    destruct IH as [IH|IH].
    + exfalso. pose proof (value_of_str_of_N ascii_only (n / 10)) as Hv.
      rewrite IH in Hv. cbn in Hv.
      assert (1 <= n / 10)%N by (apply N.div_le_lower_bound; lia).
      generalize dependent (n / 10)%N. intros; lia.
    + destruct (str_of_N (n / 10)) as [|c s] eqn:E.
      * now apply str_of_N_nonempty in E.
      * exact IH.
Qed.




(** C8: when [int] fails on the integer part, [format_number] returns the
    string it was given, minus sign included, and does not raise. *)
Theorem format_number_fails_closed (U : ucd) (num_str : str) :
  (exists e, py_int U (integer_part_of num_str) = Raise e) ->
  format_number U num_str = Return num_str.
Proof.
  intros [e He]. unfold integer_part_of in He. unfold format_number.
  assert (Hsame : (if negb (startswith_minus num_str)
                   then (if startswith_minus num_str then tl num_str else num_str)
                   else c_minus :: (if startswith_minus num_str then tl num_str else num_str))
                  = num_str).
  { destruct num_str as [|c s]; [reflexivity|]. cbn [startswith_minus].
    destruct (N.eqb_spec c c_minus) as [->|]; reflexivity. }
  set (body := if startswith_minus num_str then tl num_str else num_str) in *.
  destruct (format_number_try U (startswith_minus num_str) body) as [r|x] eqn:E.
  - exfalso. unfold format_number_try in E.
    destruct (contains c_dot body) eqn:Ec.
    + destruct (split c_dot body) as [|a [|b [|c l]]]; cbn [bind] in E; try discriminate.
      cbn [hd] in He. rewrite He in E. discriminate.
    + rewrite split_no_sep in He by assumption. cbn [hd] in He.
      rewrite He in E. discriminate.
  - apply format_number_try_raises in E as [m ->]. now rewrite Hsame.
Qed.

Lemma format_number_fails_closed_witness :
  format_number ascii_only (lit "-12a.5") = Return (lit "-12a.5").
Proof.
  apply format_number_fails_closed.
  exists (ValueError []). reflexivity.
Defined.

(* ===================================================================== *)
(** ** What [number_pattern] matches *)
(* ===================================================================== *)

Section PatternFacts.

Variable U : ucd.

Lemma span_app p s : forall d r, span p s = (d, r) -> s = d ++ r.
Proof.
  induction s as [|c t IH]; intros d r H; simpl in H.
  - now injection H as <- <-.
  - destruct (p c).
    + destruct (span p t) as [d' r'] eqn:E. injection H as <- <-.
      simpl. f_equal. now apply IH.
    + now injection H as <- <-.
Qed.

Lemma span_all p s : forall d r, span p s = (d, r) -> forallb p d = true.
Proof.
  induction s as [|c t IH]; intros d r H; simpl in H.
  - now injection H as <- <-.
  - destruct (p c) eqn:Ep.
    + destruct (span p t) as [d' r'] eqn:E. injection H as <- <-.
      simpl. rewrite Ep. now apply (IH d' r').
    + now injection H as <- <-.
Qed.

Lemma span_rest p s : forall d r, span p s = (d, r) ->
  match r with c :: _ => p c = false | [] => True end.
Proof.
  induction s as [|c t IH]; intros d r H; simpl in H.
  - now injection H as <- <-.
  - destruct (p c) eqn:Ep.
    + destruct (span p t) as [d' r'] eqn:E. injection H as <- <-.
      now apply (IH d' r').
    + now injection H as <- <-.
Qed.

(** The greedy loop over one character class, when what follows refuses to
    start on a character of the class: all of the run or nothing. *)
Lemma plus_loop_chr {A} (p : char -> bool) (k : str -> str -> option A) :
  (forall pre c s, p c = true -> k pre (c :: s) = None) ->
  forall s n pre, List.length s <= n ->
    plus_loop (rmatch (Chr p)) k n pre s
    = match span p s with
      | ([], _) => None
      | (d, r) => k (rev d ++ pre) r
      end.
Proof.
  intros Hk. induction s as [|c t IH]; intros n pre Hn.
  - destruct n; reflexivity.
  - destruct n as [|n]; [simpl in Hn; lia|].
    cbn [plus_loop rmatch span].
    destruct (p c) eqn:Ep; [|reflexivity].
    change ((fix loop (n0 : nat) (pre0 s : str) {struct n0} : option A :=
              rmatch (Chr p) pre0 s
                (fun pre' s' =>
                   match n0 with
                   | O => k pre' s'
                   | S n' => match loop n' pre' s' with
                             | Some x => Some x
                             | None => k pre' s'
                             end
                   end)) n (c :: pre) t)
      with (plus_loop (rmatch (Chr p)) k n (c :: pre) t).
    rewrite IH by (simpl in Hn; lia).
    destruct (span p t) as [d r] eqn:E.
    pose proof (span_app _ _ _ _ E) as Happ.
    pose proof (span_all _ _ _ _ E) as Hall.
    destruct d as [|x d].
    + simpl in Happ. subst r. reflexivity.
    + cbn [rev]. rewrite <- !app_assoc. cbn [app].
      destruct (k (rev d ++ x :: c :: pre) r) eqn:Ek; [reflexivity|].
      subst t. simpl in Hall.
      apply andb_prop in Hall as [Hx _]. cbn [app]. now apply Hk.
Qed.

Lemma not_ahead_spec pre s :
  rmatch (NotAhead
            (Alt (Chr (is_word U))
                 (Chr (one_of [c_minus; c_slash; c_nian; c_yue; c_ri;
                               c_shi; c_fen; c_miao; c_percent]))))
         pre s (fun pre' s' => Some (pre', s'))
  = if ahead_ok U s then Some (pre, s) else None.
Proof.
  cbn [rmatch]. destruct s as [|c t]; [reflexivity|].
  unfold ahead_ok. destruct (is_word U c); [reflexivity|].
  cbn [orb]. destruct (one_of _ c); reflexivity.
Qed.

Lemma ahead_decimal c t : is_decimal U c = true -> ahead_ok U (c :: t) = false.
Proof.
  intros H. unfold ahead_ok. now rewrite (is_decimal_word U c H).
Qed.

Lemma ahead_dot t : ahead_ok U (c_dot :: t) = true.
Proof. reflexivity. Qed.

(** The backtracking matcher on [number_pattern] finds what [number_at]
    describes. *)
Lemma match_here_number pre s :
  match_here (number_pattern U) pre s
  = match number_at U pre s with
    | Some (m, rest) => Some (rev m ++ pre, rest)
    | None => None
    end.
Proof.
  unfold match_here, number_pattern, number_at.
  cbn [rmatch].
  (* what follows the integer digits *)
  set (tailk := fun pre' s' : str =>
         match
           match s' with
           | [] => None
           | c :: s'0 =>
               if (c_dot =? c)%N
               then plus_loop (rmatch (Chr (is_decimal U)))
                      (fun pre'0 s'1 : str =>
                         rmatch (NotAhead
                           (Alt (Chr (is_word U))
                              (Chr (one_of [c_minus; c_slash; c_nian; c_yue; c_ri;
                                            c_shi; c_fen; c_miao; c_percent]))))
                           pre'0 s'1 (fun pre'1 s'2 : str => Some (pre'1, s'2)))
                      (List.length s'0) (c :: pre') s'0
               else None
           end
         with
         | Some x => Some x
         | None =>
             rmatch (NotAhead
               (Alt (Chr (is_word U))
                  (Chr (one_of [c_minus; c_slash; c_nian; c_yue; c_ri;
                                c_shi; c_fen; c_miao; c_percent]))))
               pre' s' (fun pre'0 s'0 : str => Some (pre'0, s'0))
         end).
  assert (Htail_dec : forall pre' c s', is_decimal U c = true -> tailk pre' (c :: s') = None).
  { intros pre' c s' Hc. unfold tailk.
    destruct (N.eqb_spec c_dot c) as [<-|_]; [discriminate|].
    rewrite not_ahead_spec, ahead_decimal by assumption. reflexivity. }
  assert (Htail : forall pre' s',
    tailk pre' s' =
      match s' with
      | c :: t =>
          if (c_dot =? c)%N then
            match span (is_decimal U) t with
            | ([], _) => Some (pre', s')
            | (d2, s3) =>
                if ahead_ok U s3 then Some (rev d2 ++ c :: pre', s3)
                else Some (pre', s')
            end
          else if ahead_ok U s' then Some (pre', s') else None
      | [] => Some (pre', [])
      end).
  { intros pre' s'. unfold tailk. destruct s' as [|c t]; [reflexivity|].
    rewrite not_ahead_spec.
    destruct (N.eqb_spec c_dot c) as [<-|_]; [|reflexivity].
    rewrite plus_loop_chr; [| |lia].
    - destruct (span (is_decimal U) t) as [d2 s3] eqn:E.
      destruct d2 as [|x d2]; [reflexivity|].
      rewrite not_ahead_spec. destruct (ahead_ok U s3); reflexivity.
    - intros pre0 c0 s0 Hc0. rewrite not_ahead_spec, ahead_decimal by assumption.
      reflexivity. }
  assert (Hint : forall pre' s',
    plus_loop (rmatch (Chr (is_decimal U))) tailk (List.length s') pre' s'
    = match span (is_decimal U) s' with
      | ([], _) => None
      | (d, r) => tailk (rev d ++ pre') r
      end).
  { intros pre' s'. apply plus_loop_chr; [exact Htail_dec|lia]. }
  assert (Hbody : forall sign s1,
    plus_loop (rmatch (Chr (is_decimal U))) tailk (List.length s1) (rev sign ++ pre) s1
    = match
        match span (is_decimal U) s1 with
        | ([], _) => None
        | (d1, s2) =>
            match s2 with
            | c :: t =>
                if (c_dot =? c)%N then
                  match span (is_decimal U) t with
                  | ([], _) => Some (sign ++ d1, s2)
                  | (d2, s3) =>
                      if ahead_ok U s3 then Some (sign ++ d1 ++ c :: d2, s3)
                      else Some (sign ++ d1, s2)
                  end
                else if ahead_ok U s2 then Some (sign ++ d1, s2) else None
            | [] => Some (sign ++ d1, [])
            end
        end
      with
      | Some (m, rest) => Some (rev m ++ pre, rest)
      | None => None
      end).
  { intros sign s1. rewrite Hint.
    destruct (span (is_decimal U) s1) as [d1 s2] eqn:E1.
    destruct d1 as [|x d1]; [reflexivity|].
    rewrite Htail.
    destruct s2 as [|c t]; [norm_rev|].
    destruct (c_dot =? c)%N.
    - destruct (span (is_decimal U) t) as [d2 s3] eqn:E2.
      destruct d2 as [|y d2]; [norm_rev|].
      destruct (ahead_ok U s3); norm_rev.
    - destruct (ahead_ok U (c :: t)); norm_rev. }
  assert (Hsigned : forall s0,
    match
      match s0 with
      | [] => None
      | c :: s' =>
          if (c_minus =? c)%N
          then plus_loop (rmatch (Chr (is_decimal U))) tailk (List.length s') (c :: pre) s'
          else None
      end
    with
    | Some x => Some x
    | None => plus_loop (rmatch (Chr (is_decimal U))) tailk (List.length s0) pre s0
    end
    = match
        (let '(sign, s1) :=
           match s0 with
           | c :: t => if (c_minus =? c)%N then ([c], t) else ([], s0)
           | [] => ([], s0)
           end in
         match span (is_decimal U) s1 with
         | ([], _) => None
         | (d1, s2) =>
             match s2 with
             | c :: t =>
                 if (c_dot =? c)%N then
                   match span (is_decimal U) t with
                   | ([], _) => Some (sign ++ d1, s2)
                   | (d2, s3) =>
                       if ahead_ok U s3 then Some (sign ++ d1 ++ c :: d2, s3)
                       else Some (sign ++ d1, s2)
                   end
                 else if ahead_ok U s2 then Some (sign ++ d1, s2) else None
             | [] => Some (sign ++ d1, [])
             end
         end)
      with
      | Some (m, rest) => Some (rev m ++ pre, rest)
      | None => None
      end).
  { intros s0. destruct s0 as [|c t].
    - exact (Hbody [] []).
    - destruct (N.eqb_spec c_minus c) as [<-|Hc].
      + change (c_minus :: pre) with (rev [c_minus] ++ pre).
        rewrite (Hbody [c_minus] t).
        match goal with |- match ?x with _ => _ end = _ => destruct x as [[pre' s']|] eqn:Em end;
          [reflexivity|].
        (* without the sign nothing matches: the subject starts with it *)
        change (plus_loop (rmatch (Chr (is_decimal U))) tailk (List.length (c_minus :: t)) pre
                  (c_minus :: t) = None).
        rewrite Hint. reflexivity.
      + exact (Hbody [] (c :: t)). }
  destruct pre as [|b pre'].
  - cbn [behind_ok]. apply Hsigned.
  - cbn [behind_ok]. destruct ((b =? c_slash)%N || is_word U b); [reflexivity|].
    cbn [negb]. apply Hsigned.
Qed.

End PatternFacts.

(* ===================================================================== *)
(** ** The matches of a scan *)
(* ===================================================================== *)

Section ScanFacts.

Variable U : ucd.

Lemma number_at_shape pre s m rest :
  number_at U pre s = Some (m, rest) ->
  s = m ++ rest /\
  exists neg ip dec,
    m = literal neg ip dec /\ ip <> [] /\ forallb (is_decimal U) ip = true
    /\ (forall d, dec = Some d -> d <> [] /\ forallb (is_decimal U) d = true).
Proof.
  unfold number_at. destruct (behind_ok U pre); [|discriminate].
  assert (H : forall sign s1,
    match span (is_decimal U) s1 with
    | ([], _) => None
    | (d1, s2) =>
        match s2 with
        | c :: t =>
            if (c_dot =? c)%N then
              match span (is_decimal U) t with
              | ([], _) => Some (sign ++ d1, s2)
              | (d2, s3) =>
                  if ahead_ok U s3 then Some (sign ++ d1 ++ c :: d2, s3)
                  else Some (sign ++ d1, s2)
              end
            else if ahead_ok U s2 then Some (sign ++ d1, s2) else None
        | [] => Some (sign ++ d1, [])
        end
    end = Some (m, rest) ->
    sign ++ s1 = m ++ rest /\
    exists ip dec,
      m = sign ++ ip ++ match dec with Some d => c_dot :: d | None => [] end
      /\ ip <> [] /\ forallb (is_decimal U) ip = true
      /\ (forall d, dec = Some d -> d <> [] /\ forallb (is_decimal U) d = true)).
  { intros sign s1.
    destruct (span (is_decimal U) s1) as [d1 s2] eqn:E1.
    pose proof (span_app _ _ _ _ E1) as ->.
    pose proof (span_all _ _ _ _ E1) as Hd1.
    destruct d1 as [|x d1]; [discriminate|].
    assert (Hshort : forall r, Some (sign ++ x :: d1, s2) = Some (m, r) ->
      sign ++ (x :: d1) ++ s2 = m ++ r /\
      exists ip dec,
        m = sign ++ ip ++ match dec with Some d => c_dot :: d | None => [] end
        /\ ip <> [] /\ forallb (is_decimal U) ip = true
        /\ (forall d, dec = Some d -> d <> [] /\ forallb (is_decimal U) d = true)).
    { intros r [= <- <-]. split; [now rewrite <- app_assoc|].
      exists (x :: d1), None. rewrite app_nil_r.
      repeat split; [discriminate|assumption|discriminate|discriminate]. }
    destruct s2 as [|c t]; [apply Hshort|].
    destruct (N.eqb_spec c_dot c) as [<-|_].
    - destruct (span (is_decimal U) t) as [d2 s3] eqn:E2.
      pose proof (span_app _ _ _ _ E2) as ->.
      pose proof (span_all _ _ _ _ E2) as Hd2.
      destruct d2 as [|y d2]; [apply Hshort|].
      destruct (ahead_ok U s3); [|apply Hshort].
      intros [= <- <-]. split.
      + repeat (cbn [app]; rewrite <- ?app_assoc). reflexivity.
      + exists (x :: d1), (Some (y :: d2)).
        split; [reflexivity|split; [discriminate|split; [assumption|]]].
        intros d [= <-]. split; [discriminate|assumption].
    - destruct (ahead_ok U (c :: t)); [apply Hshort|discriminate]. }
  destruct s as [|c t].
  - intros Hm. destruct (H [] [] Hm) as (Hs & ip & dec & -> & Hrest).
    split; [exact Hs|]. exists false, ip, dec. split; [reflexivity|exact Hrest].
  - destruct (N.eqb_spec c_minus c) as [<-|_].
    + intros Hm. destruct (H [c_minus] t Hm) as (Hs & ip & dec & -> & Hrest).
      split; [exact Hs|]. exists true, ip, dec. split; [reflexivity|exact Hrest].
    + intros Hm. destruct (H [] (c :: t) Hm) as (Hs & ip & dec & -> & Hrest).
      split; [exact Hs|]. exists false, ip, dec. split; [reflexivity|exact Hrest].
Qed.

Lemma literal_nonempty neg ip dec : ip <> [] -> literal neg ip dec <> [].
Proof.
  unfold literal. destruct neg; [discriminate|].
  destruct ip; [congruence|discriminate].
Qed.

Lemma firstn_rev_app (pre s : str) :
  firstn (List.length pre) (rev pre ++ s) = rev pre.
Proof.
  rewrite <- (length_rev pre). rewrite firstn_app, Nat.sub_diag, firstn_all.
  cbn [firstn]. apply app_nil_r.
Qed.

Lemma skipn_rev_app (pre s : str) :
  skipn (List.length pre) (rev pre ++ s) = s.
Proof.
  rewrite <- (length_rev pre). rewrite skipn_app, Nat.sub_diag, skipn_all.
  reflexivity.
Qed.

(** Every span the scan reports is a match of the pattern, and the spans
    come in order. *)
Lemma scan_spans fuel : forall pre s b e,
  In (b, e) (scan fuel (number_pattern U) pre s) ->
  matched_at U (rev pre ++ s) b e.
Proof.
  induction fuel as [|fuel IH]; intros pre s b e Hin; [contradiction|].
  cbn [scan] in Hin. rewrite match_here_number in Hin.
  destruct (number_at U pre s) as [[m rest]|] eqn:E.
  - destruct (number_at_shape _ _ _ _ E) as (Hs & neg & ip & dec & Hm & Hne & _).
    assert (Hlen : (List.length rest <? List.length s) = true).
    { apply Nat.ltb_lt. rewrite Hs, length_app.
      pose proof (literal_nonempty neg ip dec Hne) as Hn. rewrite <- Hm in Hn.
      destruct m; [congruence|simpl; lia]. }
    rewrite Hlen in Hin. destruct Hin as [Heq|Hin].
    + injection Heq as <- <-. exists m, rest.
      rewrite firstn_rev_app, rev_involutive, skipn_rev_app.
      split; [exact E|]. rewrite length_app, length_rev. lia.
    + apply IH in Hin. rewrite rev_app_distr, rev_involutive, <- app_assoc, <- Hs in Hin.
      exact Hin.
  - destruct s as [|c t]; [contradiction|].
    apply IH in Hin. cbn [rev] in Hin. rewrite <- app_assoc in Hin. exact Hin.
Qed.

Lemma scan_chain fuel : forall pre s,
  chain (List.length pre) (scan fuel (number_pattern U) pre s)
        (List.length pre + List.length s).
Proof.
  induction fuel as [|fuel IH]; intros pre s; [simpl; lia|].
  cbn [scan]. rewrite match_here_number.
  destruct (number_at U pre s) as [[m rest]|] eqn:E.
  - destruct (number_at_shape _ _ _ _ E) as (Hs & _).
    destruct (List.length rest <? List.length s) eqn:Hl.
    + cbn [chain]. split; [lia|]. rewrite length_app, length_rev. split; [lia|].
      specialize (IH (rev m ++ pre) rest).
      rewrite length_app, length_rev in IH.
      replace (List.length pre + List.length s)
        with (List.length m + List.length pre + List.length rest); [exact IH|].
      rewrite Hs, length_app. lia.
    + destruct s as [|c t]; [simpl; lia|].
      specialize (IH (c :: pre) t). cbn [List.length] in *.
      assert (Hc : forall l a b len, a <= b -> chain b l len -> chain a l len).
      { intros l a b0 len Hab. destruct l as [|[x y] l]; cbn [chain]; intros; lia || (repeat split; try tauto; lia). }
      apply (Hc _ _ (S (List.length pre))); [lia|].
      replace (List.length pre + S (List.length t)) with (S (List.length pre) + List.length t) by lia.
      exact IH.
  - destruct s as [|c t]; [simpl; lia|].
    specialize (IH (c :: pre) t). cbn [List.length] in *.
    assert (Hc : forall l a b len, a <= b -> chain b l len -> chain a l len).
    { intros l a b0 len Hab. destruct l as [|[x y] l]; cbn [chain]; intros; lia || (repeat split; try tauto; lia). }
    apply (Hc _ _ (S (List.length pre))); [lia|].
    replace (List.length pre + S (List.length t)) with (S (List.length pre) + List.length t) by lia.
    exact IH.
Qed.

Lemma finditer_matched text b e :
  In (b, e) (finditer (number_pattern U) text) -> matched_at U text b e.
Proof. intros H. apply scan_spans in H. exact H. Qed.

Lemma finditer_chain text :
  chain 0 (finditer (number_pattern U) text) (List.length text).
Proof. apply (scan_chain (S (List.length text)) [] text). Qed.

(** The text of a match is a literal of the grammar. *)
Lemma matched_at_literal text b e :
  matched_at U text b e ->
  exists neg ip dec,
    slice text b e = literal neg ip dec /\ ip <> []
    /\ forallb (is_decimal U) ip = true
    /\ (forall d, dec = Some d -> d <> [] /\ forallb (is_decimal U) d = true).
Proof.
  intros (m & rest & Hm & ->).
  destruct (number_at_shape _ _ _ _ Hm) as (Hs & neg & ip & dec & Hlit & Hrest).
  exists neg, ip, dec. split; [|exact Hrest].
  unfold slice. rewrite Hs.
  replace (b + List.length m - b) with (List.length m) by lia.
  rewrite firstn_app, Nat.sub_diag, firstn_all. cbn [firstn].
  now rewrite app_nil_r.
Qed.

(** Where no character is a decimal digit the scan finds nothing. *)
Lemma number_at_no_digit pre s :
  (forall c, In c s -> is_decimal U c = false) -> number_at U pre s = None.
Proof.
  intros H. unfold number_at. destruct (behind_ok U pre); [|reflexivity].
  destruct s as [|c t]; [reflexivity|].
  destruct (c_minus =? c)%N.
  - destruct t as [|c' t']; [reflexivity|].
    cbn [span]. rewrite (H c') by (right; now left). reflexivity.
  - cbn [span]. rewrite (H c) by now left. reflexivity.
Qed.

Lemma scan_no_digit fuel : forall pre s,
  (forall c, In c s -> is_decimal U c = false) ->
  scan fuel (number_pattern U) pre s = [].
Proof.
  induction fuel as [|fuel IH]; intros pre s H; [reflexivity|].
  cbn [scan]. rewrite match_here_number, number_at_no_digit by assumption.
  destruct s as [|c t]; [reflexivity|].
  apply IH. intros x Hx. apply H. now right.
Qed.

End ScanFacts.

(* ===================================================================== *)
(** ** What [replace_number] does with a match *)
(* ===================================================================== *)

Lemma firstn1_skipn (l : str) : forall i,
  firstn 1 (skipn i l) = match nth_error l i with Some c => [c] | None => [] end.
Proof.
  induction l as [|x l IH]; intros [|i]; try reflexivity.
  cbn [skipn nth_error]. apply IH.
Qed.

Lemma str_eqb_single c x : str_eqb [c] [x] = (x =? c)%N.
Proof.
  unfold str_eqb. destruct (list_eq_dec N.eq_dec [c] [x]) as [E|E].
  - injection E as ->. symmetry. apply N.eqb_refl.
  - symmetry. apply N.eqb_neq. intros ->. now apply E.
Qed.

Lemma str_in_single c : str_in [c] date_chars = is_date_char c.
Proof.
  unfold str_in, date_chars, is_date_char, one_of. cbn [existsb].
  rewrite !str_eqb_single.
  rewrite !(N.eqb_sym c). reflexivity.
Qed.

Lemma before_slice text b :
  (if 0 <? b then slice text (Nat.max 0 (b - 1)) b else [])
  = match char_before text b with Some c => [c] | None => [] end.
Proof.
  destruct b as [|i]; [reflexivity|].
  cbn [Nat.ltb Nat.leb char_before]. unfold slice.
  replace (Nat.max 0 (S i - 1)) with i by lia.
  replace (S i - i) with 1 by lia. apply firstn1_skipn.
Qed.

Lemma after_slice text e :
  (if e <? List.length text then slice text e (e + 1) else [])
  = match char_after text e with Some c => [c] | None => [] end.
Proof.
  unfold char_after, slice. replace (e + 1 - e) with 1 by lia.
  destruct (Nat.ltb_spec e (List.length text)) as [H|H].
  - apply firstn1_skipn.
  - assert (E : nth_error text e = None) by now apply nth_error_None.
    now rewrite E.
Qed.

Lemma adjacency_test text b e :
  str_in (if 0 <? b then slice text (Nat.max 0 (b - 1)) b else []) date_chars
  || str_in (if e <? List.length text then slice text e (e + 1) else []) date_chars
  = delimiter_adjacent text b e.
Proof.
  rewrite before_slice, after_slice. unfold delimiter_adjacent.
  destruct (char_before text b), (char_after text e);
    rewrite ?str_in_single; reflexivity.
Qed.

Lemma next_chars_slice text e :
  (if e + 2 <=? List.length text then slice text e (e + 2) else skipn e text)
  = firstn 2 (skipn e text).
Proof.
  unfold slice. replace (e + 2 - e) with 2 by lia.
  destruct (Nat.leb_spec (e + 2) (List.length text)) as [H|H]; [reflexivity|].
  symmetry. apply firstn_all2. rewrite length_skipn. lia.
Qed.

Lemma any_marker_test s :
  existsb (fun c => contains c s) [c_nian; c_minus; c_slash]
  = existsb (one_of [c_nian; c_minus; c_slash]) s.
Proof.
  unfold contains, one_of. cbn [existsb]. rewrite orb_false_r.
  induction s as [|x s IH]; [reflexivity|].
  cbn [existsb]. rewrite <- IH, orb_false_r.
  rewrite (N.eqb_sym x c_nian), (N.eqb_sym x c_minus), (N.eqb_sym x c_slash).
  destruct (c_nian =? x)%N, (c_minus =? x)%N, (c_slash =? x)%N,
    (existsb (N.eqb c_nian) s), (existsb (N.eqb c_minus) s),
    (existsb (N.eqb c_slash) s); reflexivity.
Qed.

Section ReplaceFacts.

Variable U : ucd.

Lemma forallb_digit_decimals s :
  forallb (is_decimal U) s = true -> forallb (is_digit U) s = true.
Proof.
  intros H. rewrite forallb_forall in *. intros c Hc.
  apply is_decimal_digit, H, Hc.
Qed.

Lemma isdigit_literal neg ip dec :
  ip <> [] -> forallb (is_decimal U) ip = true ->
  isdigit U (literal neg ip dec)
  = negb neg && match dec with None => true | Some _ => false end.
Proof.
  intros Hne Hip. unfold literal. destruct neg; [reflexivity|].
  cbn [app negb andb]. destruct dec as [d|].
  - unfold isdigit. destruct ip as [|c ip]; [congruence|].
    cbn [app]. change (c :: ip ++ c_dot :: d) with ((c :: ip) ++ c_dot :: d).
    rewrite forallb_app. cbn [forallb].
    change (is_digit U c_dot) with false. cbn [andb]. apply andb_false_r.
  - rewrite app_nil_r. unfold isdigit. destruct ip as [|c ip]; [congruence|].
    now apply forallb_digit_decimals.
Qed.

Lemma literal_length_plain ip : List.length (literal false ip None) = List.length ip.
Proof. unfold literal. cbn [app]. now rewrite app_nil_r. Qed.

(** [replace_number] on a match, case by case. *)
Lemma replace_number_literal text b e neg ip dec :
  slice text b e = literal neg ip dec ->
  ip <> [] -> forallb (is_decimal U) ip = true ->
  (forall d, dec = Some d -> d <> [] /\ forallb (is_decimal U) d = true) ->
  replace_number U text b e =
  Return (if delimiter_adjacent text b e then literal neg ip dec
          else if year_like U neg ip dec && year_context text e then literal neg ip dec
          else (if neg then [c_minus] else [])
               ++ format_comma (Z.of_N (value_of U 0 ip))
               ++ match dec with Some d => c_dot :: d | None => [] end).
Proof.
  intros Hs Hne Hip Hdec. unfold replace_number.
  rewrite adjacency_test, Hs.
  destruct (delimiter_adjacent text b e); [reflexivity|].
  assert (Hfmt : format_number U (literal neg ip dec)
                 = Return ((if neg then [c_minus] else [])
                           ++ format_comma (Z.of_N (value_of U 0 ip))
                           ++ match dec with Some d => c_dot :: d | None => [] end)).
  { apply format_number_literal_eq; [assumption|assumption|].
    intros d Hd. now apply Hdec. }
  rewrite isdigit_literal by assumption.
  unfold year_like.
  destruct neg.
  - cbn [negb andb]. rewrite andb_false_r. cbn [andb]. exact Hfmt.
  - cbn [negb andb]. destruct dec as [d|].
    + rewrite andb_false_r. cbn [andb]. exact Hfmt.
    + rewrite andb_true_r. rewrite literal_length_plain.
      destruct (List.length ip =? 4); [|exact Hfmt].
      cbn [andb].
      replace (literal false ip None) with ip in *
        by (unfold literal; cbn [app]; now rewrite app_nil_r).
      rewrite py_int_decimals by assumption. cbn [bind].
      destruct ((1900 <=? Z.of_N (value_of U 0 ip))%Z
                && (Z.of_N (value_of U 0 ip) <=? 2999)%Z) eqn:Er.
      * rewrite next_chars_slice, any_marker_test.
        cbn [andb] in *. unfold year_context.
        destruct (existsb _ (firstn 2 (skipn e text))); [reflexivity|exact Hfmt].
      * cbn [andb]. exact Hfmt.
Qed.

(** [replace_number] returns on every match. *)
Lemma replace_number_total text b e :
  matched_at U text b e -> exists r, replace_number U text b e = Return r.
Proof.
  intros H. destruct (matched_at_literal U _ _ _ H)
    as (neg & ip & dec & Hs & Hne & Hip & Hdec).
  rewrite (replace_number_literal _ _ _ _ _ _ Hs Hne Hip Hdec). eauto.
Qed.

Lemma expand_total text repl : forall spans pos,
  (forall b e, In (b, e) spans -> exists r, repl b e = Return r) ->
  exists out, expand text repl pos spans = Return out.
Proof.
  induction spans as [|[b e] spans IH]; intros pos H; cbn [expand]; [eauto|].
  destruct (H b e (or_introl eq_refl)) as [r ->]. cbn [bind].
  destruct (IH e) as [out ->]; [|cbn [bind]; eauto].
  intros b' e' Hin. apply H. now right.
Qed.

(** [process_text] returns on every text. *)
Lemma process_text_total text : exists out, process_text U text = Return out.
Proof.
  unfold process_text, re_sub. apply expand_total.
  intros b e Hin. apply replace_number_total, finditer_matched, Hin.
Qed.

Lemma slice_join text a b : a <= b -> slice text a b ++ skipn b text = skipn a text.
Proof.
  intros H. unfold slice.
  replace (skipn b text) with (skipn (b - a) (skipn a text)).
  - apply firstn_skipn.
  - rewrite skipn_skipn. f_equal. lia.
Qed.

(** When every match is put back as it was, the text comes out as it went
    in. *)
Lemma expand_identity text repl : forall spans pos,
  chain pos spans (List.length text) ->
  (forall b e, In (b, e) spans -> repl b e = Return (slice text b e)) ->
  expand text repl pos spans = Return (skipn pos text).
Proof.
  induction spans as [|[b e] spans IH]; intros pos Hc H; cbn [expand].
  - unfold slice. f_equal. apply firstn_all2. rewrite length_skipn. lia.
  - destruct Hc as (Hpb & Hbe & Hc).
    rewrite (H b e (or_introl eq_refl)). cbn [bind].
    rewrite IH; [|assumption|intros; apply H; now right]. cbn [bind].
    f_equal. rewrite slice_join by assumption. now apply slice_join.
Qed.

Lemma process_text_no_digit text :
  (forall c, In c text -> is_decimal U c = false) ->
  process_text U text = Return text.
Proof.
  intros H. unfold process_text, re_sub, finditer.
  rewrite scan_no_digit by assumption. cbn [expand].
  unfold slice. rewrite Nat.sub_0_r. cbn [skipn]. now rewrite firstn_all.
Qed.

End ReplaceFacts.

(* ===================================================================== *)
(** ** The exclusion rules of [process_text] *)
(* ===================================================================== *)

(** A text whose matches all touch a delimiter comes out unchanged. *)
Lemma process_text_all_adjacent (U : ucd) (text : str) :
  (forall b e, In (b, e) (finditer (number_pattern U) text) ->
               delimiter_adjacent text b e = true) ->
  process_text U text = Return text.
Proof.
  intros H. unfold process_text, re_sub.
  rewrite expand_identity; [reflexivity|apply finditer_chain|].
  intros b e Hin. unfold replace_number.
  rewrite adjacency_test, (H b e Hin). reflexivity.
Qed.

(** C4: a matched candidate with a date, time or percent delimiter as the
    character just before it or just after it is put back unchanged; so
    are the texts "2024年", "2024-01-05", "50%" and "3/4". *)
Theorem delimiter_adjacent_unchanged (U : ucd) (text : str) (b e : nat) :
  In (b, e) (finditer (number_pattern U) text) ->
  delimiter_adjacent text b e = true ->
  replace_number U text b e = Return (slice text b e)
  /\ process_text U (lit "2024" ++ [c_nian]) = Return (lit "2024" ++ [c_nian])
  /\ process_text U (lit "2024-01-05") = Return (lit "2024-01-05")
  /\ process_text U (lit "50%") = Return (lit "50%")
  /\ process_text U (lit "3/4") = Return (lit "3/4").
Proof.
  intros _ H. split; [|repeat split; vm_compute; reflexivity].
  unfold replace_number. rewrite adjacency_test, H. reflexivity.
Qed.

Lemma delimiter_adjacent_unchanged_witness :
  replace_number ascii_only (lit "2024-01-05") 8 10 = Return (lit "05").
Proof.
  refine (proj1 (delimiter_adjacent_unchanged ascii_only (lit "2024-01-05") 8 10 _ _)).
  - vm_compute. left. reflexivity.
  - reflexivity.
Defined.

(** C5: a matched candidate of four digits, unsigned and without a point,
    worth between 1900 and 2999 and not touching a delimiter, is put back
    unchanged when one of the two characters after it is a year marker, a
    hyphen or a slash, and is grouped otherwise; "2024" and "1987" alone are
    grouped, "1987年" and "1987-01" are not. *)
Theorem year_heuristic (U : ucd) (text : str) (b e : nat) :
  In (b, e) (finditer (number_pattern U) text) ->
  List.length (slice text b e) = 4 ->
  forallb (is_decimal U) (slice text b e) = true ->
  (1900 <= value_of U 0 (slice text b e) <= 2999)%N ->
  delimiter_adjacent text b e = false ->
  replace_number U text b e
  = Return (if year_context text e then slice text b e
            else format_comma (Z.of_N (value_of U 0 (slice text b e))))
  /\ process_text U (lit "2024") = Return (lit "2,024")
  /\ process_text U (lit "1987") = Return (lit "1,987")
  /\ process_text U (lit "1987" ++ [c_nian]) = Return (lit "1987" ++ [c_nian])
  /\ process_text U (lit "1987-01") = Return (lit "1987-01").
Proof.
  intros _ Hlen Hdec Hrange Hadj.
  split; [|repeat split; vm_compute; reflexivity].
  assert (Hne : slice text b e <> []).
  { intros E. rewrite E in Hlen. discriminate. }
  assert (Hlit : slice text b e = literal false (slice text b e) None).
  { unfold literal. cbn [app]. now rewrite app_nil_r. }
  rewrite (replace_number_literal U text b e false (slice text b e) None Hlit Hne Hdec)
    by discriminate.
  rewrite Hadj. unfold year_like. rewrite Hlen. cbn [negb andb Nat.eqb].
  destruct (Z.leb_spec 1900 (Z.of_N (value_of U 0 (slice text b e)))); [|lia].
  destruct (Z.leb_spec (Z.of_N (value_of U 0 (slice text b e))) 2999); [|lia].
  cbn [andb]. rewrite <- Hlit.
  destruct (year_context text e); [reflexivity|].
  cbn [app]. now rewrite app_nil_r.
Qed.

Lemma year_heuristic_witness :
  replace_number ascii_only (lit "in 2024 -") 3 7 = Return (lit "2024").
Proof.
  refine (proj1 (year_heuristic ascii_only (lit "in 2024 -") 3 7 _ _ _ _ _)).
  - vm_compute. left. reflexivity.
  - reflexivity.
  - reflexivity.
  - vm_compute. split; discriminate.
  - reflexivity.
Defined.

Lemma digit_value_lt10 (U : ucd) c :
  (match to_decimal U c with Some d => d | None => 0 end < 10)%N.
Proof.
  destruct (to_decimal U c) as [d|] eqn:E; [|lia].
  now apply to_decimal_lt10 in E.
Qed.

Lemma year_like_leading_zero (U : ucd) neg ip dec :
  has_leading_zero U ip -> year_like U neg ip dec = false.
Proof.
  intros Hz. unfold year_like.
  destruct (List.length ip =? 4) eqn:El; [|now rewrite !andb_false_r].
  apply Nat.eqb_eq in El.
  destruct ip as [|z [|a [|b [|c [|x l]]]]]; try discriminate.
  cbn [has_leading_zero] in Hz. cbn [value_of]. rewrite Hz.
  pose proof (digit_value_lt10 U a). pose proof (digit_value_lt10 U b).
  pose proof (digit_value_lt10 U c).
  destruct (Z.leb_spec 1900
    (Z.of_N (10 * (10 * (10 * (10 * 0 + 0)
       + match to_decimal U a with Some d => d | None => 0 end)
       + match to_decimal U b with Some d => d | None => 0 end)
       + match to_decimal U c with Some d => d | None => 0 end)%N)) as [H2|H2].
  - exfalso. lia.
  - rewrite !andb_false_r. reflexivity.
Qed.




(* ===================================================================== *)
(** ** Paragraphs *)
(* ===================================================================== *)

Lemma rewrite_runs_later formatted rs : forall i,
  rewrite_runs (S i) formatted rs = map cleared rs.
Proof.
  induction rs as [|r rs IH]; intros i; [reflexivity|].
  cbn [rewrite_runs map Nat.eqb]. now rewrite IH.
Qed.

Lemma process_text_empty (U : ucd) : process_text U [] = Return [].
Proof. reflexivity. Qed.

Lemma process_paragraph_changed (U : ucd) (p : paragraph) r0 rest formatted :
  runs p = r0 :: rest ->
  process_text U (paragraph_text p) = Return formatted ->
  formatted <> paragraph_text p ->
  process_paragraph U p
  = Return {| runs := highlighted formatted r0 :: map cleared rest |}.
Proof.
  intros Hr Ht Hd. unfold process_paragraph. rewrite Hr, Ht.
  destruct (paragraph_text p) as [|c t] eqn:E.
  - rewrite process_text_empty in Ht. injection Ht as <-. congruence.
  - cbn [orb bind].
    destruct (str_eqb (c :: t) formatted) eqn:Eq.
    + apply str_eqb_eq in Eq. congruence.
    + cbn [rewrite_runs Nat.eqb]. now rewrite rewrite_runs_later.
Qed.

(** C6: when the paragraph has runs and the substituted text differs from
    its text, [process_paragraph] puts the whole substituted text into the
    first run, sets the highlight on that run only and empties the text of
    every other run; the runs stay as many, in their order, with the rest of
    their formatting.  So three runs that join to "Total: 10000 units" end as
    three runs, the first with "Total: 10,000 units" highlighted, the other
    two empty. *)
Theorem process_paragraph_collapses (U : ucd) (p : paragraph)
    (r0 : run) (rest : list run) (formatted : str) :
  runs p = r0 :: rest ->
  process_text U (paragraph_text p) = Return formatted ->
  formatted <> paragraph_text p ->
  (exists p',
     process_paragraph U p = Return p'
     /\ runs p' = highlighted formatted r0 :: map cleared rest
     /\ List.length (runs p') = List.length (runs p)
     /\ map run_rest (runs p') = map run_rest (runs p))
  /\ (forall r1 r2 r3,
        run_text r1 ++ run_text r2 ++ run_text r3 = lit "Total: 10000 units" ->
        process_paragraph U {| runs := [r1; r2; r3] |}
        = Return {| runs := [highlighted (lit "Total: 10,000 units") r1;
                             cleared r2; cleared r3] |}).
Proof.
  intros Hr Ht Hd. split.
  - eexists. split; [exact (process_paragraph_changed U p r0 rest formatted Hr Ht Hd)|].
    cbn [runs]. split; [reflexivity|]. rewrite Hr. split.
    + cbn [List.length]. now rewrite length_map.
    + cbn [map]. f_equal. rewrite map_map. reflexivity.
  - intros r1 r2 r3 H3.
    apply process_paragraph_changed with (r0 := r1) (rest := [r2; r3]).
    + reflexivity.
    + unfold paragraph_text. cbn [runs map concat]. rewrite app_nil_r, H3.
      vm_compute. reflexivity.
    + unfold paragraph_text. cbn [runs map concat]. rewrite app_nil_r, H3.
      discriminate.
Qed.

Lemma process_paragraph_collapses_witness :
  exists p',
    process_paragraph ascii_only
      {| runs := [ {| run_text := lit "Total: "; run_fill := None; run_rest := 0 |};
                   {| run_text := lit "100"; run_fill := Some (lit "00FF00"); run_rest := 1 |};
                   {| run_text := lit "00 units"; run_fill := None; run_rest := 2 |} ] |}
    = Return p'
    /\ runs p'
       = [ {| run_text := lit "Total: 10,000 units"; run_fill := Some yellow; run_rest := 0 |};
           {| run_text := []; run_fill := Some (lit "00FF00"); run_rest := 1 |};
           {| run_text := []; run_fill := None; run_rest := 2 |} ].
Proof.
  destruct (proj1 (process_paragraph_collapses ascii_only
      {| runs := [ {| run_text := lit "Total: "; run_fill := None; run_rest := 0 |};
                   {| run_text := lit "100"; run_fill := Some (lit "00FF00"); run_rest := 1 |};
                   {| run_text := lit "00 units"; run_fill := None; run_rest := 2 |} ] |}
      {| run_text := lit "Total: "; run_fill := None; run_rest := 0 |}
      [ {| run_text := lit "100"; run_fill := Some (lit "00FF00"); run_rest := 1 |};
        {| run_text := lit "00 units"; run_fill := None; run_rest := 2 |} ]
      (lit "Total: 10,000 units")
      eq_refl eq_refl ltac:(discriminate))) as (p' & Hp & Hruns & _).
  exists p'. split; [exact Hp|exact Hruns].
Defined.

(** C7: [process_paragraph] leaves the paragraph as it is, texts and
    highlights, when it has no runs, when its text is empty, when the
    substituted text equals its text, and so when its text holds no digit. *)
Theorem process_paragraph_noop (U : ucd) (p : paragraph) :
  runs p = []
  \/ paragraph_text p = []
  \/ process_text U (paragraph_text p) = Return (paragraph_text p)
  \/ (forall c, In c (paragraph_text p) -> is_decimal U c = false) ->
  process_paragraph U p = Return p.
Proof.
  intros H.
  assert (H' : runs p = [] \/ paragraph_text p = []
               \/ process_text U (paragraph_text p) = Return (paragraph_text p)).
  { destruct H as [H|[H|[H|H]]]; auto.
    right. right. now apply process_text_no_digit. }
  clear H. unfold process_paragraph.
  destruct H' as [H|[H|H]].
  - rewrite H. now rewrite orb_true_r.
  - now rewrite H.
  - destruct (_ || _); [reflexivity|].
    rewrite H. cbn [bind].
    destruct (str_eqb (paragraph_text p) (paragraph_text p)) eqn:E; [reflexivity|].
    assert (str_eqb (paragraph_text p) (paragraph_text p) = true)
      by now apply str_eqb_eq.
    congruence.
Qed.

Lemma process_paragraph_noop_witness :
  process_paragraph ascii_only
    {| runs := [ {| run_text := lit "No digits "; run_fill := None; run_rest := 0 |};
                 {| run_text := lit "here."; run_fill := None; run_rest := 1 |} ] |}
  = Return
    {| runs := [ {| run_text := lit "No digits "; run_fill := None; run_rest := 0 |};
                 {| run_text := lit "here."; run_fill := None; run_rest := 1 |} ] |}.
Proof.
  apply process_paragraph_noop.
  right. right. left. vm_compute. reflexivity.
Defined.

(** C3: a second pass is not the identity.  The first pass turns "10000"
    into "10,000"; the second takes the "000" behind the comma for a number
    of its own and turns the text into "10,0", flagging the paragraph as
    changed again. *)
Theorem second_pass_changes_grouped_number (U : ucd) :
  process_text U (lit "10000") = Return (lit "10,000")
  /\ process_text U (lit "10,000") = Return (lit "10,0")
  /\ (s <- process_text U (lit "10000") ;; process_text U s)
     <> process_text U (lit "10000")
  /\ process_paragraph U
       {| runs := [ {| run_text := lit "10,000"; run_fill := None; run_rest := 0 |} ] |}
     = Return
       {| runs := [ {| run_text := lit "10,0"; run_fill := Some yellow; run_rest := 0 |} ] |}.
Proof.
  repeat split; try (vm_compute; reflexivity).
  vm_compute. discriminate.
Qed.

(* ===================================================================== *)
(** ** The document *)
(* ===================================================================== *)

Lemma for_each_total {A : Type} (f : A -> outcome A) (xs : list A) :
  (forall x, exists y, f x = Return y) ->
  exists ys, for_each f xs = Return ys /\ List.length ys = List.length xs.
Proof.
  intros Hf. induction xs as [|x xs (ys & IH & Hl)].
  - exists []. split; reflexivity.
  - destruct (Hf x) as [y Hy]. exists (y :: ys).
    cbn [for_each]. rewrite Hy, IH. cbn [bind List.length].
    split; [reflexivity|now rewrite Hl].
Qed.

Section WalkerFacts.

Variable U : ucd.

(** [process_paragraph] returns on every paragraph. *)
Lemma process_paragraph_total p : exists p', process_paragraph U p = Return p'.
Proof.
  unfold process_paragraph. destruct (_ || _); [eauto|].
  destruct (process_text_total U (paragraph_text p)) as [out ->]. cbn [bind].
  destruct (str_eqb _ _); eauto.
Qed.

Lemma process_table_cell_total c : exists c', process_table_cell U c = Return c'.
Proof.
  unfold process_table_cell.
  destruct (for_each_total (process_paragraph U) (cell_paragraphs c)
              process_paragraph_total) as (ps & -> & _).
  cbn [bind]. eauto.
Qed.

Lemma process_row_total r : exists r', process_row U r = Return r'.
Proof.
  unfold process_row.
  destruct (for_each_total (process_table_cell U) (cells r)
              process_table_cell_total) as (cs & -> & _).
  cbn [bind]. eauto.
Qed.

Lemma process_table_total t : exists t', process_table U t = Return t'.
Proof.
  unfold process_table.
  destruct (for_each_total (process_row U) (rows t) process_row_total)
    as (rs & -> & _).
  cbn [bind]. eauto.
Qed.

End WalkerFacts.


(* ===================================================================== *)
(** ** More on the pattern and its matches *)
(* ===================================================================== *)

Lemma number_at_context (U : ucd) pre s m rest :
  number_at U pre s = Some (m, rest) ->
  behind_ok U pre = true /\ ahead_ok U rest = true.
Proof.
  unfold number_at. destruct (behind_ok U pre); [|discriminate].
  intros H. split; [reflexivity|]. revert H.
  assert (G : forall sign s1,
    match span (is_decimal U) s1 with
    | ([], _) => None
    | (d1, s2) =>
        match s2 with
        | c :: t =>
            if (c_dot =? c)%N then
              match span (is_decimal U) t with
              | ([], _) => Some (sign ++ d1, s2)
              | (d2, s3) =>
                  if ahead_ok U s3 then Some (sign ++ d1 ++ c :: d2, s3)
                  else Some (sign ++ d1, s2)
              end
            else if ahead_ok U s2 then Some (sign ++ d1, s2) else None
        | [] => Some (sign ++ d1, [])
        end
    end = Some (m, rest) -> ahead_ok U rest = true).
  { intros sign s1. destruct (span (is_decimal U) s1) as [d1 s2].
    destruct d1 as [|x d1]; [discriminate|].
    destruct s2 as [|c t]; [intros [= _ <-]; reflexivity|].
    destruct (N.eqb_spec c_dot c) as [<-|_].
    - destruct (span (is_decimal U) t) as [d2 s3].
      destruct d2 as [|y d2]; [intros [= _ <-]; reflexivity|].
      destruct (ahead_ok U s3) eqn:E; intros [= _ <-]; [exact E|reflexivity].
    - destruct (ahead_ok U (c :: t)) eqn:E; [intros [= _ <-]; exact E|discriminate]. }
  destruct s as [|c t]; [apply (G [] [])|].
  destruct (c_minus =? c)%N; [apply (G [c] t)|apply (G [] (c :: t))].
Qed.

Lemma firstn_S_snoc (l : str) : forall i x,
  nth_error l i = Some x -> firstn (S i) l = firstn i l ++ [x].
Proof.
  induction l as [|a l IH]; intros [|i] x H; try discriminate.
  - now injection H as ->.
  - cbn [nth_error] in H. cbn [firstn app]. f_equal. now apply IH.
Qed.

Lemma hd_rev_firstn (text : str) b :
  b <= List.length text ->
  match rev (firstn b text) with c :: _ => Some c | [] => None end
  = char_before text b.
Proof.
  intros Hb. destruct b as [|i]; [reflexivity|].
  cbn [char_before].
  destruct (nth_error text i) as [x|] eqn:E.
  - rewrite (firstn_S_snoc text i x E), rev_app_distr. reflexivity.
  - apply nth_error_None in E. lia.
Qed.

Lemma hd_skipn (l : str) : forall e,
  match skipn e l with c :: _ => Some c | [] => None end = nth_error l e.
Proof.
  induction l as [|a l IH]; intros [|e]; try reflexivity.
  cbn [skipn nth_error]. apply IH.
Qed.

(** A match, with its text and what lies around it. *)
Lemma matched_at_parts (U : ucd) text b e :
  matched_at U text b e ->
  exists m,
    m <> [] /\ e = b + List.length m /\ b < e /\ e <= List.length text
    /\ skipn b text = m ++ skipn e text
    /\ number_at U (rev (firstn b text)) (skipn b text) = Some (m, skipn e text).
Proof.
  intros (m & rest & Hm & ->).
  destruct (number_at_shape U _ _ _ _ Hm) as (Hs & neg & ip & dec & Hlit & Hne & _).
  assert (Hmne : m <> []) by (rewrite Hlit; now apply literal_nonempty).
  assert (Hrest : skipn (b + List.length m) text = rest).
  { rewrite Nat.add_comm, <- skipn_skipn, Hs.
    rewrite skipn_app, Nat.sub_diag, skipn_all. reflexivity. }
  exists m. rewrite Hrest.
  assert (Hl : List.length (skipn b text) = List.length m + List.length rest)
    by (rewrite Hs; apply length_app).
  rewrite length_skipn in Hl.
  destruct m as [|x m]; [congruence|]. cbn [List.length] in *.
  repeat split; try assumption; try lia.
Qed.

(** X1: at any position, the backtracking matcher run on [number_pattern]
    finds this: nothing after a slash or a word character; otherwise an
    optional minus sign, all the digits there are, and the fraction taken
    whole when what follows it is accepted, dropped when it is not, the match
    then ending before the point. *)
Theorem number_pattern_match (U : ucd) (pre s : str) :
  match_here (number_pattern U) pre s
  = match number_at U pre s with
    | Some (m, rest) => Some (rev m ++ pre, rest)
    | None => None
    end.
Proof. exact (match_here_number U pre s). Qed.

(** What lies around a match of a scan. *)
Lemma finditer_context (U : ucd) (text : str) (b e : nat) :
  In (b, e) (finditer (number_pattern U) text) ->
  b < e /\ e <= List.length text
  /\ (forall c, char_before text b = Some c ->
                is_word U c = false /\ c <> c_slash)
  /\ (forall c, char_after text e = Some c ->
                is_word U c = false
                /\ one_of [c_minus; c_slash; c_nian; c_yue; c_ri;
                           c_shi; c_fen; c_miao; c_percent] c = false).
Proof.
  intros Hin. apply finditer_matched in Hin.
  destruct (matched_at_parts U _ _ _ Hin) as (m & Hne & He & Hlt & Hle & Hsk & Hm).
  destruct (number_at_context U _ _ _ _ Hm) as (Hb & Ha).
  split; [exact Hlt|split; [exact Hle|split]].
  - intros c Hc. unfold behind_ok in Hb.
    rewrite <- hd_rev_firstn in Hc by lia.
    destruct (rev (firstn b text)) as [|x l]; [discriminate|].
    injection Hc as ->. apply negb_true_iff, orb_false_elim in Hb as [H1 H2].
    split; [exact H2|]. now apply N.eqb_neq.
  - intros c Hc. unfold ahead_ok in Ha. unfold char_after in Hc.
    rewrite <- hd_skipn in Hc.
    destruct (skipn e text) as [|x l]; [discriminate|].
    injection Hc as ->. apply negb_true_iff, orb_false_elim in Ha as [H1 H2].
    split; assumption.
Qed.

(** X2: around every match of a scan, the character before it is neither
    a slash nor a word character, the one after it neither a word character
    nor one of [-/年月日时分秒%]; the match is not empty and lies in the
    text. *)
Theorem match_boundaries (U : ucd) (text : str) (b e : nat) :
  In (b, e) (finditer (number_pattern U) text) ->
  b < e /\ e <= List.length text
  /\ (forall c, char_before text b = Some c ->
                is_word U c = false /\ c <> c_slash)
  /\ (forall c, char_after text e = Some c ->
                is_word U c = false
                /\ one_of [c_minus; c_slash; c_nian; c_yue; c_ri;
                           c_shi; c_fen; c_miao; c_percent] c = false).
Proof. exact (finditer_context U text b e). Qed.

Lemma match_boundaries_witness :
  3 < 8 /\ 8 <= List.length (lit "at 10000 m").
Proof.
  destruct (match_boundaries ascii_only (lit "at 10000 m") 3 8) as (H1 & H2 & _).
  - vm_compute. left. reflexivity.
  - split; [exact H1|exact H2].
Defined.

(** X3: of the ten delimiters [replace_number] tests for, the pattern
    lets only three stand before a match, the hyphen, the period and the
    percent sign, and only the period after one. *)
Theorem adjacent_delimiters (U : ucd) (text : str) (b e : nat) :
  In (b, e) (finditer (number_pattern U) text) ->
  (forall c, char_before text b = Some c -> is_date_char c = true ->
             c = c_minus \/ c = c_dot \/ c = c_percent)
  /\ (forall c, char_after text e = Some c -> is_date_char c = true ->
                c = c_dot).
Proof.
  intros Hin. destruct (finditer_context U text b e Hin) as (_ & _ & Hb & Ha).
  split.
  - intros c Hc Hd. destruct (Hb c Hc) as [Hw Hs].
    date_char_cases Hd; auto; try (vm_compute in Hw; discriminate Hw).
    now contradiction Hs.
  - intros c Hc Hd. destruct (Ha c Hc) as [Hw Hs].
    date_char_cases Hd; auto;
      try (vm_compute in Hw; discriminate Hw);
      try (vm_compute in Hs; discriminate Hs).
Qed.

Lemma adjacent_delimiters_witness :
  char_after (lit "see 12. ok") 6 = Some c_dot
  /\ is_date_char c_dot = true
  /\ c_dot = c_dot.
Proof.
  split; [reflexivity|split; [reflexivity|]].
  apply (proj2 (adjacent_delimiters ascii_only (lit "see 12. ok") 4 6
                  ltac:(vm_compute; left; reflexivity)) c_dot);
    reflexivity.
Defined.

Lemma year_marker_not_ahead c :
  one_of [c_minus; c_slash; c_nian; c_yue; c_ri;
          c_shi; c_fen; c_miao; c_percent] c = false ->
  one_of [c_nian; c_minus; c_slash] c = false.
Proof.
  unfold one_of. cbn [existsb]. intros H.
  apply orb_false_elim in H as [H1 H]. apply orb_false_elim in H as [H2 H].
  apply orb_false_elim in H as [H3 _]. now rewrite H1, H2, H3.
Qed.

(** X4: for a match of a scan, the year test on the two characters after
    it can only succeed through the second: a year marker, a hyphen or a
    slash right after the digits keeps the pattern from matching at all. *)
Theorem year_context_second_char (U : ucd) (text : str) (b e : nat) :
  In (b, e) (finditer (number_pattern U) text) ->
  year_context text e
  = match nth_error text (S e) with
    | Some c => one_of [c_nian; c_minus; c_slash] c
    | None => false
    end.
Proof.
  intros Hin. destruct (finditer_context U text b e Hin) as (_ & _ & _ & Ha).
  unfold year_context. unfold char_after in Ha.
  rewrite <- (hd_skipn text (S e)), <- (hd_skipn text e) in *.
  change (S e) with (1 + e). rewrite <- skipn_skipn.
  destruct (skipn e text) as [|c1 l]; [reflexivity|].
  destruct (Ha c1 eq_refl) as [_ H1]. apply year_marker_not_ahead in H1.
  cbn [skipn]. destruct l as [|c2 l]; cbn [firstn existsb]; rewrite H1.
  - reflexivity.
  - cbn [orb]. apply orb_false_r.
Qed.

Lemma year_context_second_char_witness :
  year_context (lit "in 2024 -") 7 = true.
Proof.
  rewrite (year_context_second_char ascii_only (lit "in 2024 -") 3 7).
  - reflexivity.
  - vm_compute. left. reflexivity.
Defined.

Lemma rev_head_of (p : char -> bool) (s : str) :
  s <> [] -> forallb p s = true -> exists x l, rev s = x :: l /\ p x = true.
Proof.
  intros Hne H. destruct (rev s) as [|x l] eqn:E.
  - apply (f_equal (@rev N)) in E. rewrite rev_involutive in E. contradiction.
  - exists x, l. split; [reflexivity|].
    rewrite forallb_forall in H. apply H, in_rev. rewrite E. now left.
Qed.

(** A literal ends in a digit. *)
Lemma literal_ends_in_digit (U : ucd) neg ip (dec : option str) :
  ip <> [] -> forallb (is_decimal U) ip = true ->
  (forall d, dec = Some d -> d <> [] /\ forallb (is_decimal U) d = true) ->
  exists x l, rev (literal neg ip dec) = x :: l /\ is_decimal U x = true.
Proof.
  intros Hne Hip Hdec. unfold literal. rewrite !rev_app_distr.
  destruct dec as [d|].
  - destruct (Hdec d eq_refl) as [Hd1 Hd2].
    destruct (rev_head_of (is_decimal U) d Hd1 Hd2) as (x & l & E & Hx).
    cbn [rev]. rewrite E. cbn [app]. eauto.
  - destruct (rev_head_of (is_decimal U) ip Hne Hip) as (x & l & E & Hx).
    cbn [rev app]. rewrite E. cbn [app]. eauto.
Qed.

Lemma apart_weaken spans : forall a b len,
  a <= b -> apart b spans len -> apart a spans len.
Proof.
  destruct spans as [|[x y] l]; intros a b len Hab H; [exact I|].
  cbn [apart] in *. intuition lia.
Qed.

Lemma scan_apart (U : ucd) fuel : forall pre s,
  apart (List.length pre + (if behind_ok U pre then 0 else 1))
        (scan fuel (number_pattern U) pre s)
        (List.length pre + List.length s).
Proof.
  induction fuel as [|fuel IH]; intros pre s; [exact I|].
  cbn [scan]. rewrite match_here_number.
  destruct (number_at U pre s) as [[m rest]|] eqn:E.
  - destruct (number_at_context U _ _ _ _ E) as (Hb & _).
    destruct (number_at_shape U _ _ _ _ E)
      as (Hs & neg & ip & dec & Hm & Hne & Hip & Hdec).
    destruct (literal_ends_in_digit U neg ip dec Hne Hip Hdec) as (x & l & Ex & Hx).
    rewrite <- Hm in Ex.
    assert (El : S (List.length l) = List.length m).
    { rewrite <- (length_rev m), Ex. reflexivity. }
    assert (Hlen : List.length s = List.length m + List.length rest)
      by (rewrite Hs; apply length_app).
    destruct (Nat.ltb_spec (List.length rest) (List.length s)) as [_|Hc]; [|lia].
    rewrite Hb. cbn [apart]. rewrite length_app, length_rev.
    split; [lia|split; [lia|split; [lia|]]].
    specialize (IH (rev m ++ pre) rest).
    rewrite Ex in IH |- *. cbn [app behind_ok] in IH |- *.
    rewrite (is_decimal_word U x Hx), orb_true_r in IH. cbn [negb] in IH.
    cbn [List.length] in IH. rewrite length_app in IH.
    replace (List.length pre + List.length s)
      with (S (List.length l + List.length pre) + List.length rest) by lia.
    eapply apart_weaken; [|exact IH]. lia.
  - destruct s as [|c t]; [exact I|].
    specialize (IH (c :: pre) t). cbn [List.length] in *.
    replace (List.length pre + S (List.length t))
      with (S (List.length pre) + List.length t) by lia.
    eapply apart_weaken; [|exact IH].
    destruct (behind_ok U pre); lia.
Qed.

(** X5: the matches of a scan come from left to right, each non-empty and
    inside the text, and never two in a row: at least one character lies
    between a match and the next. *)
Theorem matches_apart (U : ucd) (text : str) :
  apart 0 (finditer (number_pattern U) text) (List.length text).
Proof. exact (scan_apart U (S (List.length text)) [] text). Qed.

Lemma number_at_nil (U : ucd) pre : number_at U pre [] = None.
Proof. unfold number_at. destruct (behind_ok U pre); reflexivity. Qed.

Lemma scan_complete (U : ucd) fuel : forall pre s i m rest,
  List.length s < fuel -> List.length pre <= i ->
  number_at U (rev (firstn i (rev pre ++ s))) (skipn i (rev pre ++ s))
  = Some (m, rest) ->
  exists b e, In (b, e) (scan fuel (number_pattern U) pre s) /\ b <= i < e.
Proof.
  induction fuel as [|fuel IH]; intros pre s i m rest Hf Hi Hm; [lia|].
  cbn [scan]. rewrite match_here_number.
  destruct (number_at U pre s) as [[m0 rest0]|] eqn:E.
  - destruct (number_at_shape U _ _ _ _ E) as (Hs & neg & ip & dec & Hlit & Hne & _).
    assert (Hmne : m0 <> []) by (rewrite Hlit; now apply literal_nonempty).
    assert (Hlen : List.length s = List.length m0 + List.length rest0)
      by (rewrite Hs; apply length_app).
    assert (Hpos : 0 < List.length m0) by (destruct m0; [congruence|simpl; lia]).
    destruct (Nat.ltb_spec (List.length rest0) (List.length s)) as [_|Hc]; [|lia].
    destruct (Nat.lt_ge_cases i (List.length pre + List.length m0)) as [Hlt|Hge].
    + exists (List.length pre), (List.length (rev m0 ++ pre)).
      split; [now left|]. rewrite length_app, length_rev. lia.
    + destruct (IH (rev m0 ++ pre) rest0 i m rest) as (b & e & Hin & Hbe).
      * lia.
      * rewrite length_app, length_rev. lia.
      * rewrite rev_app_distr, rev_involutive, <- app_assoc, <- Hs. exact Hm.
      * exists b, e. split; [now right|exact Hbe].
  - destruct (Nat.eq_dec i (List.length pre)) as [->|Hneq].
    + rewrite firstn_rev_app, rev_involutive, skipn_rev_app in Hm. congruence.
    + destruct s as [|c t].
      * rewrite skipn_all2 in Hm by (rewrite length_app, length_rev; simpl; lia).
        rewrite number_at_nil in Hm. discriminate.
      * destruct (IH (c :: pre) t i m rest) as (b & e & Hin & Hbe).
        -- simpl in Hf. lia.
        -- simpl. lia.
        -- cbn [rev]. rewrite <- app_assoc. exact Hm.
        -- exists b, e. split; assumption.
Qed.

(** X6: the scan misses nothing: a position where the pattern matches is
    the start of a reported match or lies inside one that started before. *)
Theorem scan_covers_every_match (U : ucd) (text : str) (i : nat) (x : str * str) :
  match_here (number_pattern U) (rev (firstn i text)) (skipn i text) = Some x ->
  exists b e, In (b, e) (finditer (number_pattern U) text) /\ b <= i < e.
Proof.
  rewrite match_here_number.
  destruct (number_at U (rev (firstn i text)) (skipn i text)) as [[m rest]|] eqn:E;
    [|discriminate].
  intros _. apply (scan_complete U (S (List.length text)) [] text i m rest).
  - lia.
  - simpl. lia.
  - exact E.
Qed.

Lemma scan_covers_every_match_witness :
  exists b e, In (b, e) (finditer (number_pattern ascii_only) (lit "a 10000 b"))
              /\ b <= 2 < e.
Proof.
  apply (scan_covers_every_match ascii_only (lit "a 10000 b") 2
           (lit "00001 a", lit " b")).
  vm_compute. reflexivity.
Defined.

(* ===================================================================== *)
(** ** More on [process_text] and [format_number] *)
(* ===================================================================== *)

(** The output of [pattern.sub] seen through a filter, when the filter
    cannot tell a replacement from the match it stands for. *)
Lemma expand_filter (p : char -> bool) text repl : forall spans pos,
  chain pos spans (List.length text) ->
  (forall b e, In (b, e) spans ->
     exists r, repl b e = Return r /\ filter p r = filter p (slice text b e)) ->
  exists out, expand text repl pos spans = Return out
              /\ filter p out = filter p (skipn pos text).
Proof.
  induction spans as [|[b e] spans IH]; intros pos Hc H; cbn [expand].
  - eexists. split; [reflexivity|]. unfold slice. f_equal.
    apply firstn_all2. rewrite length_skipn. lia.
  - destruct Hc as (Hpb & Hbe & Hc).
    destruct (H b e (or_introl eq_refl)) as (r & -> & Hr). cbn [bind].
    destruct (IH e Hc) as (out & -> & Hout); [intros; apply H; now right|].
    cbn [bind]. eexists. split; [reflexivity|].
    rewrite !filter_app, Hr, Hout, <- !filter_app.
    f_equal. rewrite slice_join by assumption. now apply slice_join.
Qed.

Lemma filter_none (p : char -> bool) (s : str) :
  (forall c, In c s -> p c = false) -> filter p s = [].
Proof.
  induction s as [|c s IH]; intros H; [reflexivity|].
  cbn [filter]. rewrite (H c) by now left. apply IH. intros x Hx. apply H. now right.
Qed.

Lemma group_rev_in ds : forall c, In c (group_rev ds) -> In c ds \/ c = c_comma.
Proof.
  induction ds as [|a|a b|a b c|a b c d rest IH] using list_ind3; intros x Hx;
    try (left; exact Hx).
  change (group_rev (a :: b :: c :: d :: rest))
    with (a :: b :: c :: c_comma :: group_rev (d :: rest)) in Hx.
  destruct Hx as [<-|[<-|[<-|[<-|Hx]]]]; try (left; simpl; tauto); [now right|].
  destruct (IH x Hx) as [H|H]; [left; simpl in *; tauto|now right].
Qed.

Lemma skeleton_app (U : ucd) a b : skeleton U (a ++ b) = skeleton U a ++ skeleton U b.
Proof. apply filter_app. Qed.

Lemma skeleton_decimals (U : ucd) s :
  forallb (is_decimal U) s = true -> skeleton U s = [].
Proof.
  intros H. apply filter_none. intros c Hc.
  rewrite forallb_forall in H. now rewrite (H c Hc).
Qed.

Lemma skeleton_format_comma (U : ucd) n : skeleton U (format_comma (Z.of_N n)) = [].
Proof.
  rewrite format_comma_of_N. apply filter_none. intros c Hc.
  apply in_rev, group_rev_in in Hc. destruct Hc as [Hc| ->].
  - apply in_rev in Hc. pose proof (str_of_N_decimals U n) as H.
    rewrite forallb_forall in H. now rewrite (H c Hc).
  - rewrite N.eqb_refl. now rewrite orb_true_r.
Qed.

Lemma skeleton_replacement (U : ucd) (neg : bool) ip (dec : option str) :
  forallb (is_decimal U) ip = true ->
  skeleton U ((if neg then [c_minus] else [])
              ++ format_comma (Z.of_N (value_of U 0 ip))
              ++ match dec with Some d => c_dot :: d | None => [] end)
  = skeleton U (literal neg ip dec).
Proof.
  intros Hip. unfold literal.
  rewrite !skeleton_app, skeleton_format_comma, (skeleton_decimals U ip Hip).
  reflexivity.
Qed.

Lemma process_text_skeleton (U : ucd) (text : str) :
  exists out, process_text U text = Return out
              /\ skeleton U out = skeleton U text.
Proof.
  unfold process_text, re_sub.
  destruct (expand_filter (fun c => negb (is_decimal U c || (c =? c_comma)%N))
              text (replace_number U text)
              (finditer (number_pattern U) text) 0 (finditer_chain U text))
    as (out & Ho & Hf).
  - intros b e Hin. apply finditer_matched in Hin.
    destruct (matched_at_literal U _ _ _ Hin) as (neg & ip & dec & Hs & Hne & Hip & Hdec).
    rewrite (replace_number_literal U _ _ _ _ _ _ Hs Hne Hip Hdec).
    eexists. split; [reflexivity|]. rewrite Hs.
    destruct (delimiter_adjacent text b e); [reflexivity|].
    destruct (year_like U neg ip dec && year_context text e); [reflexivity|].
    now apply skeleton_replacement.
  - exists out. split; [exact Ho|exact Hf].
Qed.

(** X7: [process_text] touches digits and commas only: with the decimal
    digits and the commas taken out, its output is its input.  Letters,
    signs, points, blanks and all other characters stay, in their order. *)
Theorem process_text_keeps_the_rest (U : ucd) (text : str) :
  exists out, process_text U text = Return out
              /\ skeleton U out = skeleton U text.
Proof. exact (process_text_skeleton U text). Qed.

Lemma format_comma_small n :
  (n < 1000)%N -> format_comma (Z.of_N n) = str_of_N n.
Proof.
  intros H. rewrite format_comma_of_N, group_rev_short.
  - apply rev_involutive.
  - rewrite length_rev. now apply str_of_N_small.
Qed.

(** X8: a text in which every match has as its integer part the plain
    decimal text of a number below 1000 comes out of [process_text] as it
    went in. *)
Theorem small_numbers_untouched (U : ucd) (text : str) :
  (forall b e, In (b, e) (finditer (number_pattern U) text) ->
     exists neg n dec,
       slice text b e = literal neg (str_of_N n) dec /\ (n < 1000)%N
       /\ (forall d, dec = Some d -> d <> [] /\ forallb (is_decimal U) d = true)) ->
  process_text U text = Return text.
Proof.
  intros H. unfold process_text, re_sub.
  rewrite expand_identity; [reflexivity|apply finditer_chain|].
  intros b e Hin. destruct (H b e Hin) as (neg & n & dec & Hs & Hn & Hdec).
  rewrite (replace_number_literal U _ _ _ _ _ _ Hs
             (str_of_N_nonempty n) (str_of_N_decimals U n) Hdec).
  rewrite value_of_str_of_N, format_comma_small by assumption.
  rewrite Hs. unfold literal.
  destruct (delimiter_adjacent text b e); [reflexivity|].
  destruct (year_like U neg (str_of_N n) dec && year_context text e); reflexivity.
Qed.

Lemma small_numbers_untouched_witness :
  process_text ascii_only (lit "a 12 b -3.50") = Return (lit "a 12 b -3.50").
Proof.
  apply small_numbers_untouched. intros b e H.
  vm_compute in H. destruct H as [H|[H|[]]]; injection H as <- <-.
  - exists false, 12%N, None. split; [reflexivity|split; [reflexivity|discriminate]].
  - exists true, 3%N, (Some (lit "50")).
    split; [reflexivity|split; [reflexivity|]].
    intros d [= <-]. split; [discriminate|reflexivity].
Defined.

Lemma span_run (p : char -> bool) (d r : str) :
  forallb p d = true ->
  match r with c :: _ => p c = false | [] => True end ->
  span p (d ++ r) = (d, r).
Proof.
  intros Hd Hr. induction d as [|c d IH].
  - destruct r as [|c r]; [reflexivity|]. cbn [app span]. now rewrite Hr.
  - cbn [forallb] in Hd. apply andb_prop in Hd as [Hc Hd].
    cbn [app span]. rewrite Hc, IH by assumption. reflexivity.
Qed.

Lemma number_at_literal (U : ucd) neg ip (dec : option str) :
  ip <> [] -> forallb (is_decimal U) ip = true ->
  (forall d, dec = Some d -> d <> [] /\ forallb (is_decimal U) d = true) ->
  number_at U [] (literal neg ip dec) = Some (literal neg ip dec, []).
Proof.
  intros Hne Hip Hdec. unfold number_at. cbn [behind_ok].
  assert (G : forall sign,
    match span (is_decimal U)
            (ip ++ match dec with Some d => c_dot :: d | None => [] end) with
    | ([], _) => None
    | (d1, s2) =>
        match s2 with
        | c :: t =>
            if (c_dot =? c)%N then
              match span (is_decimal U) t with
              | ([], _) => Some (sign ++ d1, s2)
              | (d2, s3) =>
                  if ahead_ok U s3 then Some (sign ++ d1 ++ c :: d2, s3)
                  else Some (sign ++ d1, s2)
              end
            else if ahead_ok U s2 then Some (sign ++ d1, s2) else None
        | [] => Some (sign ++ d1, [])
        end
    end = Some (sign ++ ip ++ match dec with Some d => c_dot :: d | None => [] end, [])).
  { intros sign. destruct dec as [d|].
    - destruct (Hdec d eq_refl) as [Hd1 Hd2].
      rewrite span_run; [|assumption|reflexivity].
      destruct ip as [|x ip]; [congruence|].
      rewrite N.eqb_refl.
      rewrite <- (app_nil_r d) at 1. rewrite span_run; [|assumption|exact I].
      destruct d as [|y d]; [congruence|]. reflexivity.
    - rewrite app_nil_r. rewrite <- (app_nil_r ip) at 1.
      rewrite span_run; [|assumption|exact I].
      destruct ip as [|x ip]; [congruence|]. reflexivity. }
  unfold literal. destruct neg.
  - cbn [app]. rewrite N.eqb_refl. apply (G [c_minus]).
  - pose proof (G []) as G0. clear G.
    destruct ip as [|x ip']; [congruence|].
    cbn [forallb] in Hip. apply andb_prop in Hip as [Hx Hrest].
    cbn [app] in *.
    destruct (N.eqb_spec c_minus x) as [<-|_]; [discriminate|].
    exact G0.
Qed.



Lemma split_length sep s : List.length (split sep s) = S (count_occ N.eq_dec s sep).
Proof.
  induction s as [|c s IH]; [reflexivity|].
  cbn [split count_occ].
  destruct (N.eqb_spec c sep) as [->|Hne].
  - destruct (N.eq_dec sep sep); [|congruence]. cbn [List.length]. now rewrite IH.
  - destruct (N.eq_dec c sep); [congruence|].
    destruct (split sep s); [discriminate IH|exact IH].
Qed.

(** X10: a string with two or more points after its sign comes back from
    [format_number] as it is: unpacking the pieces into integer and decimal
    part fails, and the failure is caught. *)
Theorem format_number_two_points (U : ucd) (num_str : str) :
  2 <= count_occ N.eq_dec
         (if startswith_minus num_str then tl num_str else num_str) c_dot ->
  format_number U num_str = Return num_str.
Proof.
  intros H. unfold format_number, format_number_try.
  assert (Hsame : (if negb (startswith_minus num_str)
                   then (if startswith_minus num_str then tl num_str else num_str)
                   else c_minus :: (if startswith_minus num_str then tl num_str else num_str))
                  = num_str).
  { destruct num_str as [|c s]; [reflexivity|]. cbn [startswith_minus].
    destruct (N.eqb_spec c c_minus) as [->|]; reflexivity. }
  set (body := if startswith_minus num_str then tl num_str else num_str) in *.
  assert (Hc : contains c_dot body = true).
  { destruct (contains c_dot body) eqn:E; [reflexivity|].
    apply contains_false_iff in E.
    apply (count_occ_not_In N.eq_dec) in E. lia. }
  rewrite Hc. pose proof (split_length c_dot body) as Hl.
  destruct (split c_dot body) as [|a [|b [|c l]]]; cbn [List.length] in Hl;
    cbn [bind]; try (now rewrite Hsame); lia.
Qed.

Lemma format_number_two_points_witness :
  format_number ascii_only (lit "-192.168.0.1") = Return (lit "-192.168.0.1").
Proof.
  apply format_number_two_points. vm_compute. lia.
Defined.



(* ===================================================================== *)
(** ** More on paragraphs, cells and the document *)
(* ===================================================================== *)

Lemma concat_cleared rs : concat (map run_text (map cleared rs)) = [].
Proof. induction rs as [|r rs IH]; [reflexivity|exact IH]. Qed.

Lemma process_paragraph_spec (U : ucd) (p : paragraph) :
  exists p',
    process_paragraph U p = Return p'
    /\ process_text U (paragraph_text p) = Return (paragraph_text p')
    /\ List.length (runs p') = List.length (runs p)
    /\ map run_rest (runs p') = map run_rest (runs p)
    /\ map run_fill (tl (runs p')) = map run_fill (tl (runs p))
    /\ (paragraph_text p' = paragraph_text p -> p' = p).
Proof.
  destruct p as [rs]. unfold process_paragraph. cbn [runs].
  destruct (paragraph_text {| runs := rs |}) as [|c t] eqn:Et.
  - exists {| runs := rs |}. cbn [orb]. rewrite Et.
    repeat split; reflexivity.
  - destruct rs as [|r0 rest]; [discriminate Et|]. cbn [orb].
    destruct (process_text_total U (c :: t)) as [out Hout]. rewrite Hout. cbn [bind].
    destruct (str_eqb (c :: t) out) eqn:Eq.
    + apply str_eqb_eq in Eq. subst out.
      exists {| runs := r0 :: rest |}. rewrite Et.
      repeat split; reflexivity.
    + exists {| runs := rewrite_runs 0 out (r0 :: rest) |}.
      cbn [rewrite_runs Nat.eqb]. rewrite rewrite_runs_later.
      assert (Ht : paragraph_text
                     {| runs := {| run_text := out; run_fill := Some yellow;
                                   run_rest := run_rest r0 |} :: map cleared rest |}
                   = out).
      { unfold paragraph_text. cbn [runs map concat run_text].
        rewrite concat_cleared. apply app_nil_r. }
      rewrite Ht. cbn [runs].
      split; [reflexivity|split; [reflexivity|split; [|split; [|split]]]].
      * cbn [List.length]. now rewrite length_map.
      * cbn [map run_rest]. f_equal. rewrite map_map. reflexivity.
      * cbn [tl]. rewrite map_map. reflexivity.
      * intros ->. assert (str_eqb (c :: t) (c :: t) = true) by now apply str_eqb_eq.
        congruence.
Qed.


Lemma process_paragraph_processed (U : ucd) p p' :
  process_paragraph U p = Return p' -> text_processed U p p'.
Proof.
  intros H. destruct (process_paragraph_spec U p) as (q & Hq & Ht & Hl & _).
  rewrite H in Hq. injection Hq as <-. split; assumption.
Qed.

Lemma for_each_Forall2 {A : Type} (f : A -> outcome A) : forall xs ys,
  for_each f xs = Return ys -> Forall2 (fun x y => f x = Return y) xs ys.
Proof.
  induction xs as [|x xs IH]; intros ys H; cbn [for_each] in H.
  - injection H as <-. constructor.
  - destruct (f x) as [y|e] eqn:Ey; [|discriminate]. cbn [bind] in H.
    destruct (for_each f xs) as [ys'|e]; [|discriminate]. cbn [bind] in H.
    injection H as <-. constructor; [exact Ey|now apply IH].
Qed.

Lemma Forall2_weaken {A : Type} (P Q : A -> A -> Prop) xs ys :
  (forall x y, P x y -> Q x y) -> Forall2 P xs ys -> Forall2 Q xs ys.
Proof. intros H F. induction F; constructor; auto. Qed.

Lemma process_table_cell_processed (U : ucd) c c' :
  process_table_cell U c = Return c' -> cell_processed U c c'.
Proof.
  unfold process_table_cell, cell_processed. intros H.
  destruct (for_each (process_paragraph U) (cell_paragraphs c)) as [ps|e] eqn:E;
    [|discriminate]. cbn [bind] in H. injection H as <-. cbn [cell_paragraphs].
  apply for_each_Forall2 in E.
  eapply Forall2_weaken; [|exact E]. apply process_paragraph_processed.
Qed.

Lemma process_row_processed (U : ucd) r r' :
  process_row U r = Return r' -> row_processed U r r'.
Proof.
  unfold process_row, row_processed. intros H.
  destruct (for_each (process_table_cell U) (cells r)) as [cs|e] eqn:E;
    [|discriminate]. cbn [bind] in H. injection H as <-. cbn [cells].
  apply for_each_Forall2 in E.
  eapply Forall2_weaken; [|exact E]. apply process_table_cell_processed.
Qed.

Lemma process_table_processed (U : ucd) t t' :
  process_table U t = Return t' -> table_processed U t t'.
Proof.
  unfold process_table, table_processed. intros H.
  destruct (for_each (process_row U) (rows t)) as [rs|e] eqn:E;
    [|discriminate]. cbn [bind] in H. injection H as <-. cbn [rows].
  apply for_each_Forall2 in E.
  eapply Forall2_weaken; [|exact E]. apply process_row_processed.
Qed.




(* ===================================================================== *)
(** ** More on [replace_number] *)
(* ===================================================================== *)

(** X15: on every match of a scan [replace_number] returns: the [int] of
    its year test is only reached by four decimal digits.  The pattern is
    what keeps it so; called on four superscript twos, which [isdigit]
    accepts and [int] does not, it raises. *)
Theorem replace_number_returns_on_matches (U : ucd) (text : str) (b e : nat) :
  In (b, e) (finditer (number_pattern U) text) ->
  (exists r, replace_number U text b e = Return r)
  /\ replace_number with_superscript_two [178; 178; 178; 178]%N 0 4
     = Raise (ValueError []).
Proof.
  intros Hin. split; [|vm_compute; reflexivity].
  apply replace_number_total, finditer_matched, Hin.
Qed.

Lemma replace_number_returns_on_matches_witness :
  exists r, replace_number ascii_only (lit "in 1999") 3 7 = Return r.
Proof.
  apply (proj1 (replace_number_returns_on_matches ascii_only (lit "in 1999") 3 7
                  ltac:(vm_compute; left; reflexivity))).
Defined.

(** X16: a text in which every match has a delimiter right before or right
    after it, as the parts of a date or of a dotted version number have,
    comes out of [process_text] as it went in. *)
Theorem delimited_numbers_untouched (U : ucd) (text : str) :
  (forall b e, In (b, e) (finditer (number_pattern U) text) ->
               delimiter_adjacent text b e = true) ->
  process_text U text = Return text.
Proof.
  intros H. unfold process_text, re_sub.
  rewrite expand_identity; [reflexivity|apply finditer_chain|].
  intros b e Hin. unfold replace_number.
  rewrite adjacency_test, (H b e Hin). reflexivity.
Qed.

Lemma delimited_numbers_untouched_witness :
  process_text ascii_only (lit "v10000.20000 of 1999.12.31")
  = Return (lit "v10000.20000 of 1999.12.31").
Proof.
  apply delimited_numbers_untouched. intros b e H.
  vm_compute in H.
  repeat (destruct H as [H|H]; [injection H as <- <-; reflexivity|]).
  contradiction.
Defined.
